(** * sensu-habitat-check: the check plugin of [main.go]

    A shallow embedding of the plugin's two entry points, [checkArgs] and
    [executeCheck], together with the helpers they call ([getAllServices],
    [checkServices], [checkService], [getSupervisorUrl]).

    Go strings are byte sequences: they are [string]s here, one [ascii] per
    byte.  Go [int]s are [Z]; the only arithmetic is counting the elements of
    a slice, which cannot leave the [int] range, so no wrap-around is
    written.  The HTTP transport, the JSON decoder and [net/url] are not part
    of the repository: they are parameters of the development.  Standard
    output and the requests sent are recorded in an explicit [World]; an
    index out of range is the [Panicked] outcome. *)

From Stdlib Require Import String Ascii List ZArith Bool Lia.
From Stdlib Require Import Permutation.
Import ListNotations.

Local Open Scope string_scope.
Local Open Scope list_scope.
Local Open Scope Z_scope.

(** Go writes string concatenation [+]; [++] stays the list append. *)
Infix "+++" := String.append (right associativity, at level 60).

(** ** The part of Go's [strings] package the plugin calls *)

Module strings.

(** The byte [c] as a Go [byte] value. *)
Definition byte_val (c : ascii) : Z := Z.of_N (N_of_ascii c).

(** [len(s)] *)
Definition len (s : string) : Z := Z.of_nat (String.length s).

(** [s[:m]] for [0 <= m <= len(s)] *)
Fixpoint slice_to (m : nat) (s : string) : string :=
  match m, s with
  | O, _ => ""
  | S _, "" => ""
  | S m', String c s' => String c (slice_to m' s')
  end.

(** [s[m:]] for [0 <= m <= len(s)] *)
Fixpoint slice_from (m : nat) (s : string) : string :=
  match m, s with
  | O, _ => s
  | S _, "" => ""
  | S m', String _ s' => slice_from m' s'
  end.

(** [strings.HasPrefix] *)
Definition HasPrefix (s pre : string) : bool := String.prefix pre s.

(** [strings.HasSuffix]:
    [len(s) >= len(suffix) && s[len(s)-len(suffix):] == suffix] *)
Definition HasSuffix (s suffix : string) : bool :=
  (len suffix <=? len s)
  && (slice_from (Z.to_nat (len s - len suffix)) s =? suffix)%string.

(** [strings.TrimSuffix]: one occurrence of [suffix] is removed, if any. *)
Definition TrimSuffix (s suffix : string) : string :=
  if HasSuffix s suffix
  then slice_to (Z.to_nat (len s - len suffix)) s
  else s.

(** [strings.Index]: the index of the first instance of [substr] in [s],
    [-1] when there is none. *)
Fixpoint Index (s substr : string) : Z :=
  if HasPrefix s substr then 0
  else match s with
       | "" => -1
       | String _ s' =>
           let m := Index s' substr in
           if m <? 0 then -1 else m + 1
       end.

(** The loop of [genSplit]: at most [k] further cuts, then the rest. *)
Fixpoint genSplit_loop (k : nat) (s sep : string) : list string :=
  match k with
  | O => [s]
  | S k' =>
      let m := Index s sep in
      if m <? 0 then [s]
      else slice_to (Z.to_nat m) s
           :: genSplit_loop k' (slice_from (Z.to_nat (m + len sep)) s) sep
  end.

(** [strings.SplitN] for a non-empty separator.  [n = 0] gives [nil];
    [n < 0] puts no limit on the number of pieces (the loop then stops when
    [Index] finds no separator, which is what [Count(s, sep) + 1] pieces
    amounts to); otherwise at most [min n (len s + 1)] pieces are returned,
    the last one holding the unsplit remainder.  The empty separator (Go's
    [explode], which cuts after each UTF-8 sequence) is not needed by the
    plugin and is left out: it yields [nil] here. *)
Definition SplitN (s sep : string) (n : Z) : list string :=
  if n =? 0 then []
  else if (sep =? "")%string then []
  else
    let n := if n <? 0 then len s + 1 else n in
    let n := if len s + 1 <? n then len s + 1 else n in
    genSplit_loop (Z.to_nat (n - 1)) s sep.

(** [utf8.RuneSelf]: bytes below it are single-byte runes. *)
Definition RuneSelf : Z := 0x80.

(** The comparison of two ASCII runes in [EqualFold]: equal, or an upper
    case letter and its lower case form. *)
Definition asciiEqualFold (sr tr : Z) : bool :=
  if tr =? sr then true
  else
    let lo := if tr <? sr then tr else sr in
    let hi := if tr <? sr then sr else tr in
    (byte_val "A" <=? lo) && (lo <=? byte_val "Z")
    && (hi =? lo + byte_val "a" - byte_val "A").

(** [strings.EqualFold s t] for an ASCII [t]; every call of the plugin
    passes a lower case ASCII literal for [t].

    Go compares rune by rune under Unicode simple case folding.  While the
    bytes of [s] are ASCII this is [asciiEqualFold].  A byte of [s] at or
    above [RuneSelf] starts a multi-byte rune (or is invalid and decodes to
    U+FFFD); against an ASCII rune of [t] such a rune matches only if it is
    in the fold orbit of that rune, and [unicode.SimpleFold] has two orbits
    that join ASCII letters to other runes: K, k, U+212A (KELVIN SIGN,
    bytes E2 84 AA) and S, s, U+017F (LATIN SMALL LETTER LONG S, bytes
    C5 BF). *)
Fixpoint EqualFold (s t : string) : bool :=
  match s, t with
  | "", "" => true
  | "", String _ _ => false
  | String _ _, "" => false
  | String a s1, String b t' =>
      if byte_val a <? RuneSelf then
        asciiEqualFold (byte_val a) (byte_val b) && EqualFold s1 t'
      else
        match s1 with
        | "" => false
        | String a1 s2 =>
            if (byte_val a =? 0xC5) && (byte_val a1 =? 0xBF) then
              ((byte_val b =? byte_val "s") || (byte_val b =? byte_val "S"))
              && EqualFold s2 t'
            else
              match s2 with
              | "" => false
              | String a2 s3 =>
                  if (byte_val a =? 0xE2) && (byte_val a1 =? 0x84)
                     && (byte_val a2 =? 0xAA) then
                    ((byte_val b =? byte_val "k")
                     || (byte_val b =? byte_val "K"))
                    && EqualFold s3 t'
                  else false
              end
        end
  end.

End strings.

(** ** Values shared with the plugin SDK and the Go library *)

(** Modelled from the spec: the four check states of the Sensu plugin SDK
    ([sensu.CheckStateOK] and its siblings), which [main.go] imports and the
    repository does not hold.  The spec has them as the integer result code
    of a check, one of OK, WARNING, CRITICAL and UNKNOWN; they are numbered
    as check exit codes are.  The properties below only need them to be
    four different integers. *)
Module sensu.
Definition CheckStateOK : Z := 0.
Definition CheckStateWarning : Z := 1.
Definition CheckStateCritical : Z := 2.
Definition CheckStateUnknown : Z := 3.
End sensu.

(** The double quote character, as a string. *)
Definition dquote : string := String "034" "".

(** A Go [error], kept as its message; [None] is the [nil] error. *)
Definition error : Type := string.

(** A Go result pair [(value, err)] of which exactly one side is used. *)
Inductive Result (A : Type) : Type :=
| Ok (a : A)
| Err (e : error).
Arguments Ok {A} a.
Arguments Err {A} e.

(** [Config]: the plugin configuration (the embedded [sensu.PluginConfig]
    only names the plugin and is left out). *)
Record Config : Type := {
  SupervisorURL : string;
  Services : list string;
  Timeout : Z
}.

(** An element of [ServiceResponse]. *)
Record ServiceEntry : Type := { EntryServiceGroup : string }.
Definition ServiceResponse : Type := list ServiceEntry.

Record HealthResponse : Type := { RespStatus : string }.

Record Health : Type := {
  ServiceGroup : string;
  Status : Z;
  Error : option error
}.

Definition set_Status (h : Health) (st : Z) : Health :=
  {| ServiceGroup := ServiceGroup h; Status := st; Error := Error h |}.
Definition set_Error (h : Health) (e : error) : Health :=
  {| ServiceGroup := ServiceGroup h; Status := Status h; Error := Some e |}.

(** What the plugin sets of an [http.Request], and reads of an
    [http.Response]. *)
Record Request : Type := {
  Method : string;
  URL : string;
  Header : list (string * string)
}.

Record Response : Type := {
  StatusCode : Z;
  Body : string
}.

(** [req.Header.Set(key, value)] *)
Definition Header_Set (req : Request) (key value : string) : Request :=
  {| Method := Method req;
     URL := URL req;
     Header := (key, value)
               :: filter (fun kv => negb (fst kv =? key)%string) (Header req) |}.

(** ** Effects: requests sent, lines printed, panics *)

Record World : Type := {
  requests : list Request;
  stdout : list string
}.

Inductive Outcome (A : Type) : Type :=
| Done (a : A)
| Panicked (msg : string).
Arguments Done {A} a.
Arguments Panicked {A} msg.

Definition M (A : Type) : Type := World -> Outcome A * World.

Definition ret {A} (a : A) : M A := fun w => (Done a, w).

Definition bind {A B} (c : M A) (k : A -> M B) : M B :=
  fun w =>
    match c w with
    | (Done a, w') => k a w'
    | (Panicked msg, w') => (Panicked msg, w')
    end.

Notation "x <- c ;; k" := (bind c (fun x => k))
  (at level 61, c at next level, right associativity).
Notation "c ;;; k" := (bind c (fun _ => k))
  (at level 61, right associativity).

Definition panic {A} (msg : string) : M A := fun w => (Panicked msg, w).

(** [fmt.Printf] with its format already expanded: one entry of [stdout] per
    call. *)
Definition Printf (text : string) : M unit :=
  fun w => (Done tt, {| requests := requests w; stdout := stdout w ++ [text] |}).

(** [l[i]]: a slice index out of range panics. *)
Definition at_index {A} (l : list A) (i : nat) : M A :=
  match nth_error l i with
  | Some x => ret x
  | None => panic "runtime error: index out of range"
  end.

Definition emptyWorld : World := {| requests := []; stdout := [] |}.

(** An element of the [ServiceResponse] of the earlier versions of the
    plugin, [src/unnamed/part_000] and [src/main.go] from line 470, where a
    listing carries the health of each service. *)
Record ListedService : Type := {
  HealthCheck : string;
  ListedServiceGroup : string
}.

(** The [HealthResponse] of [src/main.go] from line 246. *)
Record GroupHealth : Type := {
  GroupServiceGroup : string;
  GroupStatus : string
}.

(** ** A small supervisor to run the plugin against

    Concrete stand-ins for the parameters of the development, used to
    evaluate the plugin on the scenarios of its documentation. *)

Module Supervisor.

(** As [net/url.Parse] does first, reject a URL that holds an ASCII control
    character; every other URL is taken as well-formed. *)
Fixpoint url_Parse (u : string) : option error :=
  match u with
  | "" => None
  | String c u' =>
      if (strings.byte_val c <? 0x20) || (strings.byte_val c =? 0x7F)
      then Some "net/url: invalid control character in URL"
      else url_Parse u'
  end.

(** [strconv.Quote] on text that needs no escape. *)
Definition Quote (s : string) : string := dquote +++ s +++ dquote.

(** The body of a health answer with the given status. *)
Definition healthBody (status : string) : string :=
  "{" +++ dquote +++ "status" +++ dquote +++ ":" +++ dquote +++ status
  +++ dquote +++ "}".

(** Decodes the bodies [healthBody] makes, and only those. *)
Definition decodeHealth (body : string) : Result HealthResponse :=
  let pre := "{" +++ dquote +++ "status" +++ dquote +++ ":" +++ dquote in
  let post := dquote +++ "}" in
  if strings.HasPrefix body pre && strings.HasSuffix body post then
    Ok {| RespStatus :=
            strings.TrimSuffix
              (strings.slice_from (String.length pre) body) post |}
  else Err "invalid character looking for beginning of value".

(** The body of a listing with one entry per service group. *)
Fixpoint servicesEntries (groups : list string) : string :=
  match groups with
  | [] => ""
  | [g] => "{" +++ dquote +++ "service_group" +++ dquote +++ ":" +++ dquote
           +++ g +++ dquote +++ "}"
  | g :: rest =>
      "{" +++ dquote +++ "service_group" +++ dquote +++ ":" +++ dquote
      +++ g +++ dquote +++ "}," +++ servicesEntries rest
  end.

Definition servicesBody (groups : list string) : string :=
  "[" +++ servicesEntries groups +++ "]".

(** Decodes the listings of the groups in [known], and only those. *)
Definition decodeServices (known : list (list string)) (body : string)
  : Result ServiceResponse :=
  match find (fun groups => (servicesBody groups =? body)%string) known with
  | Some groups => Ok (map (fun g => {| EntryServiceGroup := g |}) groups)
  | None => Err "invalid character looking for beginning of value"
  end.

(** A supervisor given by a table from request URL to answer; a URL that is
    not in the table is refused. *)
Definition serve (table : list (string * Result Response))
  (n : nat) (req : Request) : Result Response :=
  match find (fun entry => (fst entry =? URL req)%string) table with
  | Some entry => snd entry
  | None => Err "connection refused"
  end.

(** The default supervisor URL, and configurations that use it. *)
Definition base : string := "http://127.0.0.1:9631".

Definition explicit (services : list string) : Config :=
  {| SupervisorURL := base; Services := services; Timeout := 15 |}.

Definition enumerating : Config := explicit [].

(** The default URL written with one, and with two, trailing slashes. *)
Definition one_slash : Config :=
  {| SupervisorURL := base +++ "/"; Services := []; Timeout := 15 |}.

Definition two_slashes : Config :=
  {| SupervisorURL := base +++ "//"; Services := []; Timeout := 15 |}.

Definition answer (code : Z) (body : string) : Result Response :=
  Ok {| StatusCode := code; Body := body |}.

Definition listingURL : string := base +++ "/services".
Definition redisURL : string := base +++ "/services/redis/default/health".
Definition webURL : string := base +++ "/services/web/default/health".

(** The listings the examples use. *)
Definition listings : list (list string) :=
  [[]; ["redis.default"]; ["redis"]].

(** redis reports a warning, web is fine. *)
Definition warning_and_ok : list (string * Result Response) :=
  [(redisURL, answer 200 (healthBody "warning"));
   (webURL, answer 200 (healthBody "OK"))].

(** redis is listed but not loaded. *)
Definition redis_404 : list (string * Result Response) :=
  [(listingURL, answer 200 (servicesBody ["redis.default"]));
   (redisURL, answer 404 "")].

(** The listing is not JSON. *)
Definition listing_garbled : list (string * Result Response) :=
  [(listingURL, answer 200 "<html>")].

(** The health of redis is not JSON, web is fine. *)
Definition redis_garbled : list (string * Result Response) :=
  [(redisURL, answer 200 "<html>");
   (webURL, answer 200 (healthBody "ok"))].

(** Nothing is loaded. *)
Definition nothing_loaded : list (string * Result Response) :=
  [(listingURL, answer 200 (servicesBody []))].

(** redis is fine. *)
Definition redis_ok : list (string * Result Response) :=
  [(redisURL, answer 200 (healthBody "ok"))].

(** redis is critical, spelt with a capital. *)
Definition redis_critical : list (string * Result Response) :=
  [(redisURL, answer 200 (healthBody "Critical"))].

(** The listing names a group without a [.]. *)
Definition listing_no_dot : list (string * Result Response) :=
  [(listingURL, answer 200 (servicesBody ["redis"]))].

(** A listing of the earlier versions: the health text and the group of
    each service. *)
Definition listed (health group : string) : ListedService :=
  {| HealthCheck := health; ListedServiceGroup := group |}.

(** Decodes the bodies of [table] into the listings beside them. *)
Definition decodeListed (table : list (string * list ListedService))
  (body : string) : Result (list ListedService) :=
  match find (fun entry => (fst entry =? body)%string) table with
  | Some entry => Ok (snd entry)
  | None => Err "invalid character looking for beginning of value"
  end.

(** Two services, one in warning and one whose health text is empty. *)
Definition warning_and_blank : list ListedService :=
  [listed "WARNING" "redis.default"; listed "" "web.default"].

(** One service that is fine and one whose health text is not a status. *)
Definition ok_and_blank : list ListedService :=
  [listed "ok" "redis.default"; listed "starting" "web.default"].

Definition listedBodies : list (string * list ListedService) :=
  [("warning and blank", warning_and_blank); ("ok and blank", ok_and_blank)].

(** A closed body has nothing left to read, and nothing decodes from it. *)
Definition closedBody (body : string) : string := "".

Definition decodeGroupHealth (body : string) : Result GroupHealth :=
  if (body =? "")%string then Err "http: read on closed response body"
  else Ok {| GroupServiceGroup := ""; GroupStatus := body |}.

Definition groupURL : string := base +++ "/services/redis/default".

(** The listing of the earlier versions, with a warning. *)
Definition listing_warning : list (string * Result Response) :=
  [(listingURL, answer 200 "warning and blank")].

(** The listing of the earlier versions, without one. *)
Definition listing_ok : list (string * Result Response) :=
  [(listingURL, answer 200 "ok and blank")].

(** redis answers for its group, web is not there. *)
Definition redis_group_only : list (string * Result Response) :=
  [(groupURL, answer 200 "warning and blank")].

(** redis is in warning, web is critical. *)
Definition warning_and_critical : list (string * Result Response) :=
  [(redisURL, answer 200 (healthBody "warning"));
   (webURL, answer 200 (healthBody "critical"))].

End Supervisor.

(** ** The plugin *)

Section Plugin.

Set Default Proof Using "Type".

(** [net/url.Parse], of which only the error is looked at: [None] when the
    URL parses. *)
Variable url_Parse : string -> option error.

(** [strconv.Quote], the [%q] verb of [fmt]. *)
Variable strconv_Quote : string -> string.

(** [json.NewDecoder(body).Decode(&v)] at the two types it is used at. *)
Variable json_Decode_ServiceResponse : string -> Result ServiceResponse.
Variable json_Decode_HealthResponse : string -> Result HealthResponse.

(** The supervisor as seen through [http.DefaultTransport]: the answer to
    the [n]-th request of the run (counted from 0), which may depend on [n]
    as a supervisor's state changes between two requests. *)
Variable transport : nat -> Request -> Result Response.

(** The global [plugin], filled in by the SDK before [checkArgs] runs. *)
Variable plugin : Config.

(** [http.NewRequest(method, url, nil)] for a valid method: it fails when
    the URL does not parse, with the parser's error. *)
Definition http_NewRequest (method url : string) : Result Request :=
  match url_Parse url with
  | Some err => Err err
  | None => Ok {| Method := method; URL := url; Header := [] |}
  end.

(** [client.Do(req)]: the request is recorded, the transport answers. *)
Definition client_Do (req : Request) : M (Result Response) :=
  fun w =>
    (Done (transport (List.length (requests w)) req),
     {| requests := requests w ++ [req]; stdout := stdout w |}).

(** The [for] loop of [checkArgs]: [Some] is its early [return]. *)
Fixpoint checkArgs_loop (services : list string) : option (Z * option error) :=
  match services with
  | [] => None
  | service :: rest =>
      let serviceSplit := strings.SplitN service "." 2 in
      if negb (Z.of_nat (List.length serviceSplit) =? 2) then
        Some (sensu.CheckStateWarning,
              Some ("--service " +++ strconv_Quote service
                    +++ " value malformed should be " +++ dquote
                    +++ "service_name.service_group" +++ dquote))
      else checkArgs_loop rest
  end.

Definition checkArgs : Z * option error :=
  match (if Z.of_nat (List.length (Services plugin)) >? 0
         then checkArgs_loop (Services plugin)
         else None) with
  | Some r => r
  | None =>
      match url_Parse (SupervisorURL plugin) with
      | Some err =>
          (sensu.CheckStateWarning,
           Some ("failed to parse supervisor URL " +++ SupervisorURL plugin
                 +++ ": " +++ err))
      | None => (sensu.CheckStateOK, None)
      end
  end.

Definition getSupervisorUrl : string :=
  (* a trailing slash will cause errors *)
  strings.TrimSuffix (SupervisorURL plugin) "/".

(** The loop [result[i] = v.ServiceGroup] over a [result] made with the
    length of [services] writes every index once, in range. *)
Definition getAllServices : M (Result (list string)) :=
  match http_NewRequest "GET" (getSupervisorUrl +++ "/services") with
  | Err err => ret (Err err)
  | Ok req =>
      let req := Header_Set req "Accept" "application/json" in
      r <- client_Do req ;;
      match r with
      | Err err => ret (Err err)
      | Ok resp =>
          match json_Decode_ServiceResponse (Body resp) with
          | Err err =>
              ret (Err ("failed to decode service response: " +++ err))
          | Ok services => ret (Ok (map EntryServiceGroup services))
          end
      end
  end.

Definition checkService (service : string) : M Health :=
  let result := {| ServiceGroup := service;
                   Status := sensu.CheckStateUnknown;
                   Error := None |} in
  let serviceSplit := strings.SplitN service "." 2 in
  name <- at_index serviceSplit 0 ;;
  group <- at_index serviceSplit 1 ;;
  match http_NewRequest "GET"
          (getSupervisorUrl +++ "/services/" +++ name +++ "/" +++ group
           +++ "/health") with
  | Err err => ret (set_Error result err)
  | Ok req =>
      let req := Header_Set req "Accept" "application/json" in
      r <- client_Do req ;;
      match r with
      | Err err => ret (set_Error result err)
      | Ok resp =>
          (* a service that isn't loaded or has been stopped returns a 404 *)
          if StatusCode resp =? 200 then
            match json_Decode_HealthResponse (Body resp) with
            | Err err =>
                ret (set_Error result
                       ("failed to decode health response: " +++ err))
            | Ok hResp =>
                if strings.EqualFold (RespStatus hResp) "ok" then
                  ret (set_Status result sensu.CheckStateOK)
                else if strings.EqualFold (RespStatus hResp) "warning" then
                  ret (set_Status result sensu.CheckStateWarning)
                else if strings.EqualFold (RespStatus hResp) "critical" then
                  ret (set_Status result sensu.CheckStateCritical)
                else if strings.EqualFold (RespStatus hResp) "unknown" then
                  ret (set_Status result sensu.CheckStateUnknown)
                else ret result
            end
          else ret result
      end
  end.

(** The loop of [checkServices], [result] being the slice appended to. *)
Fixpoint checkServices_loop (services : list string) (result : list Health)
  : M (list Health) :=
  match services with
  | [] => ret result
  | service :: rest =>
      health <- checkService service ;;
      checkServices_loop rest (result ++ [health])
  end.

Definition checkServices (services : list string) : M (list Health) :=
  checkServices_loop services [].

(** The [\n] of a format string. *)
Definition newline : string := String "010" "".

(** The local variables of [executeCheck] that its loop updates. *)
Record Counters : Type := {
  oks : Z;
  warnings : Z;
  criticals : Z;
  unknowns : Z;
  found : bool
}.

Definition noCounters : Counters :=
  {| oks := 0; warnings := 0; criticals := 0; unknowns := 0; found := false |}.

(** One iteration of [for _, h := range health]. *)
Definition executeCheck_step (c : Counters) (h : Health) : M Counters :=
  let c := {| oks := oks c; warnings := warnings c; criticals := criticals c;
              unknowns := unknowns c; found := true |} in
  c <- (if Status h =? sensu.CheckStateOK then
          ret {| oks := oks c + 1; warnings := warnings c;
                 criticals := criticals c; unknowns := unknowns c;
                 found := found c |}
        else if Status h =? sensu.CheckStateWarning then
          Printf (ServiceGroup h +++ " WARNING" +++ newline) ;;;
          ret {| oks := oks c; warnings := warnings c + 1;
                 criticals := criticals c; unknowns := unknowns c;
                 found := found c |}
        else if Status h =? sensu.CheckStateCritical then
          Printf (ServiceGroup h +++ " CRITICAL" +++ newline) ;;;
          ret {| oks := oks c; warnings := warnings c;
                 criticals := criticals c + 1; unknowns := unknowns c;
                 found := found c |}
        else if Status h =? sensu.CheckStateUnknown then
          Printf (ServiceGroup h +++ " UNKNOWN" +++ newline) ;;;
          ret {| oks := oks c; warnings := warnings c;
                 criticals := criticals c; unknowns := unknowns c + 1;
                 found := found c |}
        else ret c) ;;
  match Error h with
  | Some err =>
      Printf ("Error occured while checking service:" +++ newline
              +++ err +++ newline) ;;;
      ret c
  | None => ret c
  end.

Fixpoint executeCheck_loop (health : list Health) (c : Counters) : M Counters :=
  match health with
  | [] => ret c
  | h :: rest =>
      c' <- executeCheck_step c h ;;
      executeCheck_loop rest c'
  end.

(** [executeCheck] from [health := checkServices(services, client)] on. *)
Definition executeCheck_services (services : list string)
  : M (Z * option error) :=
  health <- checkServices services ;;
  c <- executeCheck_loop health noCounters ;;
  if (criticals c >? 0) || (unknowns c >? 0) then
    ret (sensu.CheckStateCritical, None)
  else if warnings c >? 0 then
    ret (sensu.CheckStateWarning, None)
  else
    (if found c
     then Printf "All health checks returning OK for loaded services"
     else Printf "No services loaded") ;;;
    ret (sensu.CheckStateOK, None).

(** Setting the timeout of [http.DefaultClient] has no counterpart here:
    a request that times out is an [Err] answer of [transport]. *)
Definition executeCheck : M (Z * option error) :=
  let services := Services plugin in
  if Z.of_nat (List.length services) =? 0 then
    r <- getAllServices ;;
    match r with
    | Err err =>
        ret (sensu.CheckStateCritical,
             Some ("could not retrieve services: " +++ err))
    | Ok services => executeCheck_services services
    end
  else executeCheck_services services.

(** ** Vocabulary of the properties *)

(** [s] holds a [.] *)
Fixpoint has_dot (s : string) : bool :=
  match s with
  | "" => false
  | String c s' => (c =? ".")%char || has_dot s'
  end.

(** What stands before, and after, the first [.] of [s]. *)
Fixpoint before_dot (s : string) : string :=
  match s with
  | "" => ""
  | String c s' => if (c =? ".")%char then "" else String c (before_dot s')
  end.

Fixpoint after_dot (s : string) : string :=
  match s with
  | "" => ""
  | String c s' => if (c =? ".")%char then s' else after_dot s'
  end.

(** The ASCII lower case form of a byte. *)
Definition toLower_byte (c : ascii) : ascii :=
  if (strings.byte_val "A" <=? strings.byte_val c)
     && (strings.byte_val c <=? strings.byte_val "Z")
  then ascii_of_N (Z.to_N (strings.byte_val c + 32))
  else c.

(** [s] with its ASCII letters in lower case. *)
Fixpoint toLower (s : string) : string :=
  match s with
  | "" => ""
  | String c s' => String (toLower_byte c) (toLower s')
  end.

(** [s] holds ASCII bytes only. *)
Fixpoint is_ascii (s : string) : bool :=
  match s with
  | "" => true
  | String c s' => (strings.byte_val c <? strings.RuneSelf) && is_ascii s'
  end.

(** [s] is made of the letters [a] to [z]. *)
Fixpoint is_lower_word (s : string) : bool :=
  match s with
  | "" => true
  | String c s' =>
      (strings.byte_val "a" <=? strings.byte_val c)
      && (strings.byte_val c <=? strings.byte_val "z")
      && is_lower_word s'
  end.

(** The simple case fold of [s] as far as ASCII is concerned: ASCII letters
    go to lower case, U+212A (bytes E2 84 AA) to [k], U+017F (bytes C5 BF)
    to [s]; every other byte is kept. *)
Fixpoint simpleFold (s : string) : string :=
  match s with
  | "" => ""
  | String a s1 =>
      if strings.byte_val a <? strings.RuneSelf then
        String (toLower_byte a) (simpleFold s1)
      else
        match s1 with
        | "" => String a ""
        | String a1 s2 =>
            if (strings.byte_val a =? 0xC5) && (strings.byte_val a1 =? 0xBF)
            then String "s" (simpleFold s2)
            else
              match s2 with
              | "" => String a (simpleFold s1)
              | String a2 s3 =>
                  if (strings.byte_val a =? 0xE2)
                     && (strings.byte_val a1 =? 0x84)
                     && (strings.byte_val a2 =? 0xAA)
                  then String "k" (simpleFold s3)
                  else String a (simpleFold s1)
              end
        end
  end.

(** The health a status text stands for, read off its case fold. *)
Definition healthOf (status : string) : Z :=
  if (simpleFold status =? "ok")%string then sensu.CheckStateOK
  else if (simpleFold status =? "warning")%string then sensu.CheckStateWarning
  else if (simpleFold status =? "critical")%string then sensu.CheckStateCritical
  else sensu.CheckStateUnknown.

(** The precedence rule over a collection of health values. *)
Definition aggregate (statuses : list Z) : Z :=
  if existsb (fun st => (st =? sensu.CheckStateCritical)
                        || (st =? sensu.CheckStateUnknown)) statuses
  then sensu.CheckStateCritical
  else if existsb (fun st => st =? sensu.CheckStateWarning) statuses
  then sensu.CheckStateWarning
  else sensu.CheckStateOK.

(** The word printed for a health value that is not OK. *)
Definition statusWord (st : Z) : option string :=
  if st =? sensu.CheckStateWarning then Some "WARNING"
  else if st =? sensu.CheckStateCritical then Some "CRITICAL"
  else if st =? sensu.CheckStateUnknown then Some "UNKNOWN"
  else None.

(** The line naming a service that is not OK, if it is not. *)
Definition statusLine (h : Health) : list string :=
  match statusWord (Status h) with
  | Some word => [ServiceGroup h +++ " " +++ word +++ newline]
  | None => []
  end.

(** The detail printed when the request of a service failed. *)
Definition errorDetail (h : Health) : list string :=
  match Error h with
  | Some err =>
      ["Error occured while checking service:" +++ newline +++ err
       +++ newline]
  | None => []
  end.

(** Everything printed about one service. *)
Definition report (h : Health) : list string := statusLine h ++ errorDetail h.

(** The closing message, printed only when the result is OK. *)
Definition closing (health : list Health) : list string :=
  if aggregate (map Status health) =? sensu.CheckStateOK then
    match health with
    | [] => ["No services loaded"]
    | _ :: _ => ["All health checks returning OK for loaded services"]
    end
  else [].

(** An identifier that splits into two non-empty parts around its first
    [.] and holds no further [.]: the form [name.group] read strictly. *)
Definition strict_name_group (s : string) : bool :=
  has_dot s
  && negb (before_dot s =? "")%string
  && negb (after_dot s =? "")%string
  && negb (has_dot (after_dot s)).

(** The health a service is given before its request is answered. *)
Definition unknownHealth (service : string) : Health :=
  {| ServiceGroup := service;
     Status := sensu.CheckStateUnknown;
     Error := None |}.

(** The request [checkService] builds for [service]. *)
Definition healthRequest (service : string) : Request :=
  Header_Set
    {| Method := "GET";
       URL := getSupervisorUrl +++ "/services/" +++ before_dot service
              +++ "/" +++ after_dot service +++ "/health";
       Header := [] |}
    "Accept" "application/json".

(** The request [getAllServices] builds. *)
Definition servicesRequest : Request :=
  Header_Set
    {| Method := "GET";
       URL := getSupervisorUrl +++ "/services";
       Header := [] |}
    "Accept" "application/json".

(** [w] after [req] was sent. *)
Definition sent (w : World) (req : Request) : World :=
  {| requests := requests w ++ [req]; stdout := stdout w |}.

(** [w] after [lines] were printed. *)
Definition printed (w : World) (lines : list string) : World :=
  {| requests := requests w; stdout := stdout w ++ lines |}.

(** What [checkService] can return for [service]: one of the four check
    states, and an error only next to the unknown state. *)
Definition produced (service : string) (h : Health) : Prop :=
  ServiceGroup h = service
  /\ (Status h = sensu.CheckStateOK \/ Status h = sensu.CheckStateWarning
      \/ Status h = sensu.CheckStateCritical
      \/ Status h = sensu.CheckStateUnknown)
  /\ (Status h <> sensu.CheckStateUnknown -> Error h = None).

(** How many of [health] have the status [st]. *)
Definition tally (st : Z) (health : list Health) : Z :=
  Z.of_nat (count_occ Z.eq_dec (map Status health) st).

(** The first step of [executeCheck]: the services it goes on to check,
    or the error of the enumeration. *)
Definition servicesToCheck : M (Result (list string)) :=
  if Z.of_nat (List.length (Services plugin)) =? 0
  then getAllServices
  else ret (Ok (Services plugin)).

(** A service whose health request can be built: its URL parses. *)
Definition requestable (service : string) : bool :=
  match url_Parse (URL (healthRequest service)) with
  | None => true
  | Some _ => false
  end.

(** A request as the plugin makes them: a GET that accepts JSON. *)
Definition plain_get (req : Request) : Prop :=
  Method req = "GET" /\ Header req = [("Accept", "application/json")].

(** ** Earlier versions of the plugin

    [src/unnamed/part_000] and the two later blocks of [src/main.go] hold
    the plugin as it was before the health of a service was asked for, service
    by service, and kept per service.  Their functions have the names of the
    current ones; a prefix tells them apart here: [inline_] for
    [src/unnamed/part_000], where the listing itself carries the health of
    each service; [group_] for [src/main.go] from line 470, which asks for
    one listing per named group; [draft_] for [src/main.go] from line 246,
    which asks the health endpoint and gives up at the first failure.
    [checkArgs] is the same text in [src/main.go] at lines 68, 313 and 537. *)

(** [json.NewDecoder(body).Decode(&v)] at the types of the earlier versions. *)
Variable json_Decode_ListedServices : string -> Result (list ListedService).
Variable json_Decode_GroupHealth : string -> Result GroupHealth.

(** What is left to read of a body once [resp.Body.Close()] has run. *)
Variable closed : string -> string.

(** One iteration of the loop [for _, s := range sResp] of the earlier
    versions, on the status text and the group of [s].  The [continue] after
    an OK skips nothing, the chain being all there is in the loop body. *)
Definition text_step (status group : string) (c : Counters) : M Counters :=
  let c := {| oks := oks c; warnings := warnings c; criticals := criticals c;
              unknowns := unknowns c; found := true |} in
  if strings.EqualFold status "ok" then
    ret {| oks := oks c + 1; warnings := warnings c;
           criticals := criticals c; unknowns := unknowns c;
           found := found c |}
  else if strings.EqualFold status "warning" then
    Printf (group +++ " WARNING" +++ newline) ;;;
    ret {| oks := oks c; warnings := warnings c + 1;
           criticals := criticals c; unknowns := unknowns c;
           found := found c |}
  else if strings.EqualFold status "critical" then
    Printf (group +++ " CRITICAL" +++ newline) ;;;
    ret {| oks := oks c; warnings := warnings c;
           criticals := criticals c + 1; unknowns := unknowns c;
           found := found c |}
  else if strings.EqualFold status "unknown" then
    Printf (group +++ " UNKNOWN" +++ newline) ;;;
    ret {| oks := oks c; warnings := warnings c;
           criticals := criticals c; unknowns := unknowns c + 1;
           found := found c |}
  else ret c.

(** That loop, over elements whose status text and group are read with
    [statusOf] and [groupOf]. *)
Fixpoint text_loop {A : Type} (statusOf groupOf : A -> string) (sResp : list A)
  (c : Counters) : M Counters :=
  match sResp with
  | [] => ret c
  | s :: rest =>
      c' <- text_step (statusOf s) (groupOf s) c ;;
      text_loop statusOf groupOf rest c'
  end.

(** The end of [executeCheck], from [if criticals > 0 || unknowns > 0] on,
    which is the same text in every version. *)
Definition verdict (c : Counters) : M (Z * option error) :=
  if (criticals c >? 0) || (unknowns c >? 0) then
    ret (sensu.CheckStateCritical, None)
  else if warnings c >? 0 then
    ret (sensu.CheckStateWarning, None)
  else
    (if found c
     then Printf "All health checks returning OK for loaded services"
     else Printf "No services loaded") ;;;
    ret (sensu.CheckStateOK, None).

(** [checkArgs] of [src/unnamed/part_000], whose body is commented out. *)
Definition inline_checkArgs : Z * option error := (sensu.CheckStateOK, None).

(** [executeCheck] of [src/unnamed/part_000]. *)
Definition inline_executeCheck : M (Z * option error) :=
  match url_Parse (SupervisorURL plugin) with
  | Some err =>
      ret (sensu.CheckStateWarning,
           Some ("Failed to parse supervisor URL " +++ SupervisorURL plugin
                 +++ ": " +++ err))
  | None =>
      match http_NewRequest "GET" (SupervisorURL plugin +++ "/services") with
      | Err err => ret (sensu.CheckStateCritical, Some err)
      | Ok req =>
          let req := Header_Set req "Accept" "application/json" in
          r <- client_Do req ;;
          match r with
          | Err err => ret (sensu.CheckStateCritical, Some err)
          | Ok resp =>
              match json_Decode_ListedServices (Body resp) with
              | Err err =>
                  ret (sensu.CheckStateCritical,
                       Some ("Failed to decode service response: " +++ err))
              | Ok sResp =>
                  c <- text_loop HealthCheck ListedServiceGroup sResp
                         noCounters ;;
                  verdict c
              end
          end
      end
  end.

(** [getServiceResponse] of [src/main.go], line 652. *)
Definition group_getServiceResponse (req : Request)
  : M (Result (list ListedService)) :=
  r <- client_Do req ;;
  match r with
  | Err err => ret (Err err)
  | Ok resp =>
      match json_Decode_ListedServices (Body resp) with
      | Err err => ret (Err ("failed to decode service response: " +++ err))
      | Ok result => ret (Ok result)
      end
  end.

(** [checkAllServices] of [src/main.go], line 616. *)
Definition group_checkAllServices : M (Result (list ListedService)) :=
  match http_NewRequest "GET" (SupervisorURL plugin +++ "/services") with
  | Err err => ret (Err err)
  | Ok req =>
      group_getServiceResponse (Header_Set req "Accept" "application/json")
  end.

(** The loop of [checkServices] of [src/main.go], line 627; every [return]
    inside it leaves the function. *)
Fixpoint group_checkServices_loop (services : list string)
  (result : list ListedService) : M (Result (list ListedService)) :=
  match services with
  | [] => ret (Ok result)
  | service :: rest =>
      let serviceSplit := strings.SplitN service "." 2 in
      name <- at_index serviceSplit 0 ;;
      group <- at_index serviceSplit 1 ;;
      match http_NewRequest "GET"
              (SupervisorURL plugin +++ "/services/" +++ name +++ "/"
               +++ group) with
      | Err err => ret (Err err)
      | Ok req =>
          r <- group_getServiceResponse
                 (Header_Set req "Accept" "application/json") ;;
          match r with
          | Err err => ret (Err err)
          | Ok sResp => group_checkServices_loop rest (result ++ sResp)
          end
      end
  end.

Definition group_checkServices (services : list string)
  : M (Result (list ListedService)) :=
  group_checkServices_loop services [].

(** [executeCheck] of [src/main.go], line 560. *)
Definition group_executeCheck : M (Z * option error) :=
  r <- (if Z.of_nat (List.length (Services plugin)) >? 0
        then group_checkServices (Services plugin)
        else group_checkAllServices) ;;
  match r with
  | Err err =>
      ret (sensu.CheckStateCritical,
           Some ("could not retrive service health: " +++ err))
  | Ok sResp =>
      c <- text_loop HealthCheck ListedServiceGroup sResp noCounters ;;
      verdict c
  end.

(** [getResponse] of [src/main.go], line 457: its deferred
    [resp.Body.Close()] runs as it returns, so the caller gets the response
    with its body closed. *)
Definition draft_getResponse (req : Request) : M (Result Response) :=
  r <- client_Do req ;;
  match r with
  | Err err => ret (Err err)
  | Ok resp =>
      ret (Ok {| StatusCode := StatusCode resp; Body := closed (Body resp) |})
  end.

(** [getAllServices] of [src/main.go], line 399. *)
Definition draft_getAllServices : M (Result (list string)) :=
  match http_NewRequest "GET" (SupervisorURL plugin +++ "/services") with
  | Err err => ret (Err err)
  | Ok req =>
      let req := Header_Set req "Accept" "application/json" in
      r <- draft_getResponse req ;;
      match r with
      | Err err => ret (Err err)
      | Ok resp =>
          match json_Decode_ServiceResponse (Body resp) with
          | Err err =>
              ret (Err ("failed to decode service response: " +++ err))
          | Ok services => ret (Ok (map EntryServiceGroup services))
          end
      end
  end.

(** The loop of [checkServices] of [src/main.go], line 426. *)
Fixpoint draft_checkServices_loop (services : list string)
  (result : list GroupHealth) : M (Result (list GroupHealth)) :=
  match services with
  | [] => ret (Ok result)
  | service :: rest =>
      let serviceSplit := strings.SplitN service "." 2 in
      name <- at_index serviceSplit 0 ;;
      group <- at_index serviceSplit 1 ;;
      match http_NewRequest "GET"
              (SupervisorURL plugin +++ "/services/" +++ name +++ "/"
               +++ group +++ "/health") with
      | Err err => ret (Err err)
      | Ok req =>
          let req := Header_Set req "Accept" "application/json" in
          r <- draft_getResponse req ;;
          match r with
          | Err err => ret (Err err)
          | Ok resp =>
              match json_Decode_GroupHealth (Body resp) with
              | Err err =>
                  ret (Err ("failed to decode health response: " +++ err))
              | Ok health =>
                  let health := {| GroupServiceGroup := service;
                                   GroupStatus := GroupStatus health |} in
                  draft_checkServices_loop rest (result ++ [health])
              end
          end
      end
  end.

Definition draft_checkServices (services : list string)
  : M (Result (list GroupHealth)) :=
  draft_checkServices_loop services [].

(** [executeCheck] of [src/main.go], line 340, from
    [sResp, err = checkServices(services, client)] on. *)
Definition draft_executeCheck_services (services : list string)
  : M (Z * option error) :=
  r <- draft_checkServices services ;;
  match r with
  | Err err =>
      ret (sensu.CheckStateCritical,
           Some ("could not retrieve service health: " +++ err))
  | Ok sResp =>
      c <- text_loop GroupStatus GroupServiceGroup sResp noCounters ;;
      verdict c
  end.

(** [executeCheck] of [src/main.go], line 340. *)
Definition draft_executeCheck : M (Z * option error) :=
  let services := Services plugin in
  if Z.of_nat (List.length services) =? 0 then
    r <- draft_getAllServices ;;
    match r with
    | Err err =>
        ret (sensu.CheckStateCritical,
             Some ("could not retrieve services: " +++ err))
    | Ok services => draft_executeCheck_services services
    end
  else draft_executeCheck_services services.

(** The check state a status text stands for in the earlier versions, which
    have none for a text that is not one of the four words. *)
Definition readStatus (status : string) : option Z :=
  if (simpleFold status =? "ok")%string then Some sensu.CheckStateOK
  else if (simpleFold status =? "warning")%string
  then Some sensu.CheckStateWarning
  else if (simpleFold status =? "critical")%string
  then Some sensu.CheckStateCritical
  else if (simpleFold status =? "unknown")%string
  then Some sensu.CheckStateUnknown
  else None.

(** The elements of a listing whose status text is one of the four words,
    as health values. *)
Definition recognised {A : Type} (statusOf groupOf : A -> string)
  (sResp : list A) : list Health :=
  flat_map
    (fun s =>
       match readStatus (statusOf s) with
       | Some st =>
           [{| ServiceGroup := groupOf s; Status := st; Error := None |}]
       | None => []
       end)
    sResp.

(** The closing message of the earlier versions: it tells an empty listing
    from one with elements, recognised or not. *)
Definition text_closing {A : Type} (statusOf groupOf : A -> string)
  (sResp : list A) : list string :=
  if aggregate (map Status (recognised statusOf groupOf sResp))
     =? sensu.CheckStateOK
  then
    match sResp with
    | [] => ["No services loaded"]
    | _ :: _ => ["All health checks returning OK for loaded services"]
    end
  else [].

(** The request [inline_executeCheck], [group_checkAllServices] and
    [draft_getAllServices] build: the base URL is taken as it is. *)
Definition rawServicesRequest : Request :=
  Header_Set
    {| Method := "GET";
       URL := SupervisorURL plugin +++ "/services";
       Header := [] |}
    "Accept" "application/json".

(** The request [group_checkServices] builds for [service]. *)
Definition groupRequest (service : string) : Request :=
  Header_Set
    {| Method := "GET";
       URL := SupervisorURL plugin +++ "/services/" +++ before_dot service
              +++ "/" +++ after_dot service;
       Header := [] |}
    "Accept" "application/json".

(** The request [draft_checkServices] builds for [service]. *)
Definition rawHealthRequest (service : string) : Request :=
  Header_Set
    {| Method := "GET";
       URL := SupervisorURL plugin +++ "/services/" +++ before_dot service
              +++ "/" +++ after_dot service +++ "/health";
       Header := [] |}
    "Accept" "application/json".

(** Runs the straight-line code of an iteration and compares the worlds up
    to the bracketing of what was printed. *)
Ltac step_done :=
  unfold bind, ret, Printf, printed; cbn;
  rewrite <- ?app_assoc, ?app_nil_r; cbn;
  eexists; split; [reflexivity |]; cbn; repeat split; lia.

(** ** Facts about the string functions *)

Lemma prefix_empty (s : string) : String.prefix "" s = true.
Proof. destruct s; reflexivity. Qed.

Lemma HasPrefix_dot (c : ascii) (s : string) :
  strings.HasPrefix (String c s) "." = (c =? ".")%char.
Proof.
  unfold strings.HasPrefix. cbn [String.prefix].
  destruct (ascii_dec "." c) as [e | n].
  - subst c. now rewrite prefix_empty.
  - symmetry. apply Ascii.eqb_neq. congruence.
Qed.

Lemma Index_dot (s : string) :
  strings.Index s "." =
    if has_dot s then Z.of_nat (String.length (before_dot s)) else -1.
Proof.
  induction s as [| c s IH].
  - reflexivity.
  - cbn [strings.Index has_dot before_dot].
    rewrite HasPrefix_dot.
    destruct (c =? ".")%char; [reflexivity |].
    cbn [orb]. rewrite IH.
    destruct (has_dot s).
    + destruct (Z.ltb_spec (Z.of_nat (String.length (before_dot s))) 0);
        cbn [String.length]; lia.
    + reflexivity.
Qed.

Lemma slice_to_before_dot (s : string) :
  has_dot s = true ->
  strings.slice_to (String.length (before_dot s)) s = before_dot s.
Proof.
  induction s as [| c s IH]; cbn [has_dot before_dot]; [discriminate |].
  destruct (c =? ".")%char; [reflexivity |].
  cbn [orb String.length strings.slice_to]. intros H. now rewrite IH.
Qed.

Lemma slice_from_after_dot (s : string) :
  has_dot s = true ->
  strings.slice_from (S (String.length (before_dot s))) s = after_dot s.
Proof.
  induction s as [| c s IH]; cbn [has_dot before_dot after_dot];
    [discriminate |].
  destruct (c =? ".")%char.
  - intros _. reflexivity.
  - cbn [orb String.length]. intros H.
    change (strings.slice_from (S (S (String.length (before_dot s))))
              (String c s))
      with (strings.slice_from (S (String.length (before_dot s))) s).
    now apply IH.
Qed.

(** [SplitN(s, ".", 2)] cuts at the first [.], when there is one. *)
Lemma SplitN_dot (s : string) :
  strings.SplitN s "." 2 =
    if has_dot s then [before_dot s; after_dot s] else [s].
Proof.
  destruct s as [| c s]; [reflexivity |].
  unfold strings.SplitN.
  change (2 =? 0) with false. change (("." =? "")%string) with false.
  change (2 <? 0) with false. cbv iota.
  assert (Hlen : (strings.len (String c s) + 1 <? 2) = false).
  { apply Z.ltb_ge. unfold strings.len. cbn [String.length]. lia. }
  rewrite Hlen. change (Z.to_nat (2 - 1)) with 1%nat.
  cbn [strings.genSplit_loop]. rewrite Index_dot.
  destruct (has_dot (String c s)) eqn:Hdot.
  - assert (Hneg : (Z.of_nat (String.length (before_dot (String c s))) <? 0)
                   = false) by (apply Z.ltb_ge; lia).
    rewrite Hneg. rewrite Nat2Z.id.
    rewrite (slice_to_before_dot _ Hdot).
    change (strings.len ".") with 1.
    replace (Z.to_nat (Z.of_nat (String.length (before_dot (String c s))) + 1))
      with (S (String.length (before_dot (String c s)))) by lia.
    now rewrite (slice_from_after_dot _ Hdot).
  - reflexivity.
Qed.

(** ** One service *)

Lemma checkService_no_dot (service : string) (w : World) :
  has_dot service = false ->
  checkService service w
  = (Panicked "runtime error: index out of range", w).
Proof.
  intros Hdot. unfold checkService. rewrite SplitN_dot, Hdot.
  reflexivity.
Qed.

(** With a [.] in [service], [checkService] is the request and what is
    made of its answer. *)
Lemma checkService_dot (service : string) (w : World) :
  has_dot service = true ->
  checkService service w =
    match url_Parse (URL (healthRequest service)) with
    | Some err => (Done (set_Error (unknownHealth service) err), w)
    | None =>
        match transport (List.length (requests w)) (healthRequest service) with
        | Err err =>
            (Done (set_Error (unknownHealth service) err),
             sent w (healthRequest service))
        | Ok resp =>
            if StatusCode resp =? 200 then
              match json_Decode_HealthResponse (Body resp) with
              | Err err =>
                  (Done (set_Error (unknownHealth service)
                           ("failed to decode health response: " +++ err)),
                   sent w (healthRequest service))
              | Ok hResp =>
                  (Done (set_Status (unknownHealth service)
                           (if strings.EqualFold (RespStatus hResp) "ok"
                            then sensu.CheckStateOK
                            else if strings.EqualFold (RespStatus hResp) "warning"
                            then sensu.CheckStateWarning
                            else if strings.EqualFold (RespStatus hResp) "critical"
                            then sensu.CheckStateCritical
                            else sensu.CheckStateUnknown)),
                   sent w (healthRequest service))
              end
            else (Done (unknownHealth service), sent w (healthRequest service))
        end
    end.
Proof.
  intros Hdot. unfold checkService. rewrite SplitN_dot, Hdot.
  unfold bind, at_index, ret, http_NewRequest. cbn [nth_error].
  change (URL (healthRequest service))
    with (getSupervisorUrl +++ "/services/" +++ before_dot service +++ "/"
          +++ after_dot service +++ "/health").
  destruct (url_Parse _) as [err |]; [reflexivity |].
  unfold client_Do.
  fold (healthRequest service).
  destruct (transport _ _) as [resp | err]; [| reflexivity].
  destruct (StatusCode resp =? 200); [| reflexivity].
  destruct (json_Decode_HealthResponse _) as [hResp | err]; [| reflexivity].
  destruct (strings.EqualFold (RespStatus hResp) "ok"); [reflexivity |].
  destruct (strings.EqualFold (RespStatus hResp) "warning"); [reflexivity |].
  destruct (strings.EqualFold (RespStatus hResp) "critical"); [reflexivity |].
  destruct (strings.EqualFold (RespStatus hResp) "unknown"); reflexivity.
Qed.

(** ** Case folding *)

Lemma byte_val_range (c : ascii) : 0 <= strings.byte_val c < 256.
Proof.
  unfold strings.byte_val. pose proof (N_ascii_bounded c). lia.
Qed.

Lemma byte_val_inj (a b : ascii) :
  strings.byte_val a = strings.byte_val b -> a = b.
Proof.
  unfold strings.byte_val. intros H. apply N2Z.inj in H.
  rewrite <- (ascii_N_embedding a), <- (ascii_N_embedding b). now rewrite H.
Qed.

Lemma byte_val_eqb (a b : ascii) :
  (strings.byte_val a =? strings.byte_val b) = (a =? b)%char.
Proof.
  destruct (Ascii.eqb_spec a b) as [-> | Hne].
  - apply Z.eqb_refl.
  - apply Z.eqb_neq. intros H. apply Hne. now apply byte_val_inj.
Qed.

Lemma toLower_byte_val (c : ascii) :
  strings.byte_val (toLower_byte c) =
    if (65 <=? strings.byte_val c) && (strings.byte_val c <=? 90)
    then strings.byte_val c + 32
    else strings.byte_val c.
Proof.
  unfold toLower_byte.
  change (strings.byte_val "A") with 65. change (strings.byte_val "Z") with 90.
  destruct ((65 <=? strings.byte_val c) && (strings.byte_val c <=? 90)) eqn:E;
    [| reflexivity].
  apply andb_true_iff in E. destruct E as [E1 E2].
  apply Z.leb_le in E1, E2.
  unfold strings.byte_val at 1. rewrite N_ascii_embedding by lia. lia.
Qed.

(** Against a lower case letter, the ASCII comparison of [EqualFold] is
    equality after lower-casing. *)
Lemma asciiEqualFold_lower (a b : ascii) :
  97 <= strings.byte_val b <= 122 ->
  strings.asciiEqualFold (strings.byte_val a) (strings.byte_val b)
  = (toLower_byte a =? b)%char.
Proof.
  intros Hb. rewrite <- byte_val_eqb, toLower_byte_val.
  unfold strings.asciiEqualFold.
  change (strings.byte_val "A") with 65. change (strings.byte_val "Z") with 90.
  change (strings.byte_val "a") with 97.
  pose proof (byte_val_range a) as Ha.
  destruct (Z.eqb_spec (strings.byte_val b) (strings.byte_val a)) as [E | NE].
  - rewrite E in *.
    destruct (Z.leb_spec 65 (strings.byte_val a));
      destruct (Z.leb_spec (strings.byte_val a) 90); cbn [andb];
      try (symmetry; apply Z.eqb_eq); lia.
  - destruct (Z.ltb_spec (strings.byte_val b) (strings.byte_val a)).
    + destruct (Z.leb_spec 65 (strings.byte_val b));
        destruct (Z.leb_spec (strings.byte_val b) 90);
        destruct (Z.leb_spec 65 (strings.byte_val a));
        destruct (Z.leb_spec (strings.byte_val a) 90); cbn [andb];
        try lia; symmetry; apply Z.eqb_neq; lia.
    + destruct (Z.leb_spec 65 (strings.byte_val a));
        destruct (Z.leb_spec (strings.byte_val a) 90); cbn [andb].
      * rewrite (Z.eqb_sym (strings.byte_val a + 32)). f_equal. lia.
      * symmetry; apply Z.eqb_neq; lia.
      * symmetry; apply Z.eqb_neq; lia.
      * symmetry; apply Z.eqb_neq; lia.
Qed.

Lemma high_byte_not_lower (a b : ascii) :
  (strings.byte_val a <? strings.RuneSelf) = false ->
  97 <= strings.byte_val b <= 122 ->
  (a =? b)%char = false.
Proof.
  intros Ha Hb. apply Z.ltb_ge in Ha. unfold strings.RuneSelf in Ha.
  rewrite <- byte_val_eqb. apply Z.eqb_neq. lia.
Qed.

(** Against a word of lower case letters, [EqualFold] is equality of the
    case fold. *)
Lemma EqualFold_simpleFold (t : string) :
  is_lower_word t = true ->
  forall s, strings.EqualFold s t = (simpleFold s =? t)%string.
Proof.
  induction t as [| b t IH]; intros Ht s.
  - destruct s as [| a s1]; [reflexivity |].
    cbn [strings.EqualFold simpleFold].
    destruct (strings.byte_val a <? strings.RuneSelf); [reflexivity |].
    destruct s1 as [| a1 s2]; [reflexivity |].
    destruct ((strings.byte_val a =? 0xC5) && (strings.byte_val a1 =? 0xBF));
      [reflexivity |].
    destruct s2 as [| a2 s3]; [reflexivity |].
    destruct ((strings.byte_val a =? 0xE2) && (strings.byte_val a1 =? 0x84)
              && (strings.byte_val a2 =? 0xAA)); reflexivity.
  - cbn [is_lower_word] in Ht.
    apply andb_true_iff in Ht. destruct Ht as [Hb Ht].
    apply andb_true_iff in Hb. destruct Hb as [Hb1 Hb2].
    apply Z.leb_le in Hb1, Hb2.
    change (strings.byte_val "a") with 97 in Hb1.
    change (strings.byte_val "z") with 122 in Hb2.
    specialize (IH Ht).
    destruct s as [| a s1]; [reflexivity |].
    cbn [strings.EqualFold simpleFold].
    destruct (strings.byte_val a <? strings.RuneSelf) eqn:Ha.
    + cbn [String.eqb]. rewrite IH.
      now rewrite asciiEqualFold_lower by lia.
    + pose proof (high_byte_not_lower a b Ha (conj Hb1 Hb2)) as Hab.
      destruct s1 as [| a1 s2].
      { cbn [String.eqb]. now rewrite Hab. }
      destruct ((strings.byte_val a =? 0xC5) && (strings.byte_val a1 =? 0xBF)).
      { cbn [String.eqb]. rewrite IH.
        rewrite (byte_val_eqb b "s"), (Ascii.eqb_sym "s" b).
        change (strings.byte_val "S") with 83.
        destruct (Z.eqb_spec (strings.byte_val b) 83); [lia |].
        now rewrite orb_false_r. }
      destruct s2 as [| a2 s3].
      { cbn [String.eqb]. now rewrite Hab. }
      destruct ((strings.byte_val a =? 0xE2) && (strings.byte_val a1 =? 0x84)
                && (strings.byte_val a2 =? 0xAA)).
      { cbn [String.eqb]. rewrite IH.
        rewrite (byte_val_eqb b "k"), (Ascii.eqb_sym "k" b).
        change (strings.byte_val "K") with 75.
        destruct (Z.eqb_spec (strings.byte_val b) 75); [lia |].
        now rewrite orb_false_r. }
      cbn [String.eqb]. now rewrite Hab.
Qed.

(** The chain of comparisons of [checkService] is [healthOf]. *)
Lemma EqualFold_chain (status : string) :
  (if strings.EqualFold status "ok" then sensu.CheckStateOK
   else if strings.EqualFold status "warning" then sensu.CheckStateWarning
   else if strings.EqualFold status "critical" then sensu.CheckStateCritical
   else sensu.CheckStateUnknown)
  = healthOf status.
Proof.
  unfold healthOf.
  now rewrite !EqualFold_simpleFold by reflexivity.
Qed.

(** On ASCII text the case fold is the lower case form. *)
Lemma simpleFold_ascii (s : string) :
  is_ascii s = true -> simpleFold s = toLower s.
Proof.
  induction s as [| c s IH]; [reflexivity |].
  cbn [is_ascii simpleFold toLower]. intros H.
  apply andb_true_iff in H. destruct H as [Hc Hs].
  rewrite Hc. now rewrite IH.
Qed.

Lemma toLower_ascii (s : string) :
  is_ascii (toLower s) = true -> is_ascii s = true.
Proof.
  induction s as [| c s IH]; [reflexivity |].
  cbn [is_ascii toLower]. intros H.
  apply andb_true_iff in H. destruct H as [Hc Hs].
  rewrite (IH Hs), andb_true_r.
  apply Z.ltb_lt in Hc. apply Z.ltb_lt.
  rewrite toLower_byte_val in Hc. unfold strings.RuneSelf in *.
  destruct ((65 <=? strings.byte_val c) && (strings.byte_val c <=? 90)); lia.
Qed.

Lemma healthOf_cases (status : string) :
  healthOf status = sensu.CheckStateOK
  \/ healthOf status = sensu.CheckStateWarning
  \/ healthOf status = sensu.CheckStateCritical
  \/ healthOf status = sensu.CheckStateUnknown.
Proof.
  unfold healthOf.
  destruct (simpleFold status =? "ok")%string; [now left |].
  destruct (simpleFold status =? "warning")%string; [now right; left |].
  destruct (simpleFold status =? "critical")%string;
    [now right; right; left | now right; right; right].
Qed.

Lemma produced_unknown (service : string) :
  produced service (unknownHealth service).
Proof.
  unfold produced; cbn. split; [reflexivity | split].
  - now right; right; right.
  - intros H. now contradiction H.
Qed.

Lemma produced_error (service : string) (err : error) :
  produced service (set_Error (unknownHealth service) err).
Proof.
  unfold produced; cbn. split; [reflexivity | split].
  - now right; right; right.
  - intros H. now contradiction H.
Qed.

Lemma produced_status (service status : string) :
  produced service (set_Status (unknownHealth service) (healthOf status)).
Proof.
  unfold produced; cbn.
  split; [reflexivity | split; [apply healthOf_cases | reflexivity]].
Qed.

(** With a [.] in [service], [checkService] returns, having printed nothing
    and sent at most its one request. *)
Lemma checkService_total (service : string) (w : World) :
  has_dot service = true ->
  exists h w',
    checkService service w = (Done h, w')
    /\ produced service h
    /\ stdout w' = stdout w
    /\ (w' = w \/ w' = sent w (healthRequest service)).
Proof.
  intros Hdot. rewrite (checkService_dot _ _ Hdot).
  destruct (url_Parse _) as [err |].
  { do 2 eexists. split; [reflexivity |].
    auto using produced_error. }
  destruct (transport _ _) as [resp | err].
  2:{ do 2 eexists. split; [reflexivity |]. auto using produced_error. }
  destruct (StatusCode resp =? 200).
  2:{ do 2 eexists. split; [reflexivity |]. auto using produced_unknown. }
  destruct (json_Decode_HealthResponse _) as [hResp | err].
  2:{ do 2 eexists. split; [reflexivity |]. auto using produced_error. }
  rewrite EqualFold_chain.
  do 2 eexists. split; [reflexivity |]. auto using produced_status.
Qed.

(** ** All services *)

Lemma checkServices_loop_acc (services : list string) :
  forall (acc : list Health) (w : World),
    checkServices_loop services acc w =
      match checkServices_loop services [] w with
      | (Done hs, w') => (Done (acc ++ hs), w')
      | (Panicked msg, w') => (Panicked msg, w')
      end.
Proof.
  induction services as [| service rest IH]; intros acc w.
  - cbn. unfold ret. now rewrite app_nil_r.
  - cbn [checkServices_loop]. unfold bind.
    destruct (checkService service w) as [[h | msg] w1]; [| reflexivity].
    rewrite (IH (acc ++ [h])), (IH ([] ++ [h])).
    destruct (checkServices_loop rest [] w1) as [[hs | msg] w2];
      [| reflexivity].
    now rewrite <- app_assoc.
Qed.

Lemma checkServices_cons (service : string) (rest : list string) (w : World) :
  checkServices (service :: rest) w =
    match checkService service w with
    | (Done h, w1) =>
        match checkServices rest w1 with
        | (Done hs, w2) => (Done (h :: hs), w2)
        | (Panicked msg, w2) => (Panicked msg, w2)
        end
    | (Panicked msg, w1) => (Panicked msg, w1)
    end.
Proof.
  unfold checkServices. cbn [checkServices_loop]. unfold bind.
  destruct (checkService service w) as [[h | msg] w1]; [| reflexivity].
  now rewrite checkServices_loop_acc.
Qed.

Lemma checkServices_app (pre post : list string) :
  forall (w w1 : World) (hp : list Health),
    checkServices pre w = (Done hp, w1) ->
    checkServices (pre ++ post) w =
      match checkServices post w1 with
      | (Done hq, w2) => (Done (hp ++ hq), w2)
      | (Panicked msg, w2) => (Panicked msg, w2)
      end.
Proof.
  induction pre as [| service pre IH]; intros w w1 hp Hpre.
  - cbn in Hpre. unfold ret in Hpre. injection Hpre as <- <-.
    cbn [app]. now destruct (checkServices post w) as [[hq | msg] w2].
  - rewrite checkServices_cons in Hpre.
    cbn [app]. rewrite checkServices_cons.
    destruct (checkService service w) as [[h | msg] w0]; [| discriminate].
    destruct (checkServices pre w0) as [[hs | msg] w0'] eqn:E;
      [| discriminate].
    injection Hpre as <- <-.
    rewrite (IH w0 w0' hs E).
    now destruct (checkServices post w0') as [[hq | msg] w2].
Qed.

(** When every service holds a [.], [checkServices] returns one health per
    service, in order, and prints nothing. *)
Lemma checkServices_total (services : list string) :
  forall w : World,
    forallb has_dot services = true ->
    exists hs w',
      checkServices services w = (Done hs, w')
      /\ Forall2 produced services hs
      /\ stdout w' = stdout w.
Proof.
  induction services as [| service rest IH]; intros w Hall.
  - exists [], w. repeat split. constructor.
  - cbn [forallb] in Hall. apply andb_true_iff in Hall.
    destruct Hall as [Hdot Hrest].
    destruct (checkService_total service w Hdot)
      as (h & w1 & Hh & Hprod & Hout & _).
    destruct (IH w1 Hrest) as (hs & w2 & Hhs & Hall2 & Hout2).
    exists (h :: hs), w2. rewrite checkServices_cons, Hh, Hhs.
    repeat split; [now constructor | congruence].
Qed.

(** [checkServices] returns only when every service holds a [.]. *)
Lemma checkServices_done (services : list string) :
  forall (w w' : World) (hs : list Health),
    checkServices services w = (Done hs, w') ->
    forallb has_dot services = true.
Proof.
  induction services as [| service rest IH]; intros w w' hs H;
    [reflexivity |].
  rewrite checkServices_cons in H. cbn [forallb].
  destruct (has_dot service) eqn:Hdot.
  - destruct (checkService service w) as [[h | msg] w1]; [| discriminate].
    destruct (checkServices rest w1) as [[hs' | msg] w2] eqn:E;
      [| discriminate].
    exact (IH _ _ _ E).
  - rewrite (checkService_no_dot _ _ Hdot) in H. discriminate.
Qed.

Lemma checkServices_produced (services : list string) (w w' : World)
  (hs : list Health) :
  checkServices services w = (Done hs, w') ->
  Forall2 produced services hs /\ stdout w' = stdout w.
Proof.
  intros H.
  destruct (checkServices_total services w (checkServices_done _ _ _ _ H))
    as (hs' & w'' & H' & Hall & Hout).
  rewrite H in H'. injection H' as <- <-. now split.
Qed.

(** ** The report *)

Lemma printed_nil (w : World) : printed w [] = w.
Proof. destruct w. unfold printed. cbn. now rewrite app_nil_r. Qed.

Lemma printed_app (w : World) (l1 l2 : list string) :
  printed (printed w l1) l2 = printed w (l1 ++ l2).
Proof. unfold printed. cbn. now rewrite app_assoc. Qed.

Lemma Printf_printed (text : string) (w : World) :
  Printf text w = (Done tt, printed w [text]).
Proof. reflexivity. Qed.

Lemma tally_cons (st : Z) (h : Health) (health : list Health) :
  tally st (h :: health)
  = (if Status h =? st then 1 else 0) + tally st health.
Proof.
  unfold tally. cbn [map count_occ].
  destruct (Z.eq_dec (Status h) st) as [E | NE].
  - rewrite (proj2 (Z.eqb_eq _ _) E). lia.
  - rewrite (proj2 (Z.eqb_neq _ _) NE). lia.
Qed.

Lemma tally_nonneg (st : Z) (health : list Health) : 0 <= tally st health.
Proof. unfold tally. lia. Qed.

Lemma tally_pos (st : Z) (health : list Health) :
  (tally st health >? 0) = existsb (fun x => x =? st) (map Status health).
Proof.
  induction health as [| h health IH]; [reflexivity |].
  rewrite tally_cons. cbn [map existsb]. rewrite <- IH.
  pose proof (tally_nonneg st health).
  destruct (Status h =? st); cbn [orb].
  - apply Z.gtb_lt. lia.
  - reflexivity.
Qed.

Lemma existsb_orb {A} (f g : A -> bool) (l : list A) :
  existsb (fun x => f x || g x) l = existsb f l || existsb g l.
Proof.
  induction l as [| x l IH]; [reflexivity |].
  cbn [existsb]. rewrite IH.
  destruct (f x), (g x), (existsb f l), (existsb g l); reflexivity.
Qed.

(** One iteration prints the report of its service and counts it. *)
Lemma executeCheck_step_spec (c : Counters) (h : Health) (w : World) :
  exists c',
    executeCheck_step c h w = (Done c', printed w (report h))
    /\ oks c' = oks c + tally sensu.CheckStateOK [h]
    /\ warnings c' = warnings c + tally sensu.CheckStateWarning [h]
    /\ criticals c' = criticals c + tally sensu.CheckStateCritical [h]
    /\ unknowns c' = unknowns c + tally sensu.CheckStateUnknown [h]
    /\ found c' = true.
Proof.
  rewrite !tally_cons. unfold tally. cbn [map count_occ].
  unfold executeCheck_step, report, statusLine, errorDetail, statusWord.
  unfold sensu.CheckStateOK, sensu.CheckStateWarning,
    sensu.CheckStateCritical, sensu.CheckStateUnknown.
  destruct w as [sent_so_far out].
  destruct (Z.eqb_spec (Status h) 0) as [E0 | N0].
  { rewrite ?E0. cbn [Z.eqb Pos.eqb]. destruct (Error h); step_done. }
  destruct (Z.eqb_spec (Status h) 1) as [E1 | N1].
  { rewrite ?E1. cbn [Z.eqb Pos.eqb]. destruct (Error h); step_done. }
  destruct (Z.eqb_spec (Status h) 2) as [E2 | N2].
  { rewrite ?E2. cbn [Z.eqb Pos.eqb]. destruct (Error h); step_done. }
  destruct (Z.eqb_spec (Status h) 3) as [E3 | N3].
  { rewrite ?E3. cbn [Z.eqb Pos.eqb]. destruct (Error h); step_done. }
  destruct (Error h); step_done.
Qed.

(** The loop prints the reports in order and counts each status. *)
Lemma executeCheck_loop_spec (health : list Health) :
  forall (c : Counters) (w : World),
  exists c',
    executeCheck_loop health c w
    = (Done c', printed w (flat_map report health))
    /\ oks c' = oks c + tally sensu.CheckStateOK health
    /\ warnings c' = warnings c + tally sensu.CheckStateWarning health
    /\ criticals c' = criticals c + tally sensu.CheckStateCritical health
    /\ unknowns c' = unknowns c + tally sensu.CheckStateUnknown health
    /\ found c' = match health with [] => found c | _ :: _ => true end.
Proof.
  induction health as [| h health IH]; intros c w.
  - exists c. cbn. unfold ret, tally. cbn. rewrite printed_nil.
    repeat split; lia.
  - destruct (executeCheck_step_spec c h w)
      as (c1 & Hstep & Ho & Hw & Hc & Hu & Hf).
    destruct (IH c1 (printed w (report h)))
      as (c2 & Hloop & Ho2 & Hw2 & Hc2 & Hu2 & Hf2).
    exists c2. cbn [executeCheck_loop flat_map]. unfold bind.
    rewrite Hstep, Hloop, printed_app.
    rewrite !(tally_cons _ h health).
    rewrite !tally_cons in Ho, Hw, Hc, Hu.
    unfold tally in Ho, Hw, Hc, Hu. cbn in Ho, Hw, Hc, Hu.
    repeat split; try lia.
    destruct health; congruence.
Qed.

(** From the health of the services on, [executeCheck] returns their
    aggregate and prints their reports, then the closing message. *)
Lemma executeCheck_services_spec (services : list string) (w w1 : World)
  (hs : list Health) :
  checkServices services w = (Done hs, w1) ->
  executeCheck_services services w
  = (Done (aggregate (map Status hs), None),
     printed w1 (flat_map report hs ++ closing hs)).
Proof.
  intros Hcs. unfold executeCheck_services, bind. rewrite Hcs.
  destruct (executeCheck_loop_spec hs noCounters w1)
    as (c & Hloop & _ & Hw & Hc & Hu & Hf).
  rewrite Hloop. cbn in Hw, Hc, Hu, Hf.
  rewrite Hw, Hc, Hu, !tally_pos.
  unfold closing, aggregate. rewrite existsb_orb.
  destruct (existsb _ _ || existsb _ _).
  { unfold ret. cbn. now rewrite app_nil_r. }
  destruct (existsb _ _).
  { unfold ret. cbn. now rewrite app_nil_r. }
  cbn [Z.eqb sensu.CheckStateOK]. unfold ret.
  destruct hs as [| h hs]; rewrite Hf, Printf_printed, printed_app;
    reflexivity.
Qed.

(** ** The whole check *)

Lemma getAllServices_spec (w : World) :
  getAllServices w =
    match url_Parse (URL servicesRequest) with
    | Some err => (Done (Err err), w)
    | None =>
        match transport (List.length (requests w)) servicesRequest with
        | Err err => (Done (Err err), sent w servicesRequest)
        | Ok resp =>
            match json_Decode_ServiceResponse (Body resp) with
            | Err err =>
                (Done (Err ("failed to decode service response: " +++ err)),
                 sent w servicesRequest)
            | Ok services =>
                (Done (Ok (map EntryServiceGroup services)),
                 sent w servicesRequest)
            end
        end
    end.
Proof.
  unfold getAllServices, http_NewRequest.
  change (URL servicesRequest) with (getSupervisorUrl +++ "/services").
  destruct (url_Parse _) as [err |]; [reflexivity |].
  unfold bind, client_Do. fold servicesRequest.
  destruct (transport _ _) as [resp | err]; [| reflexivity].
  destruct (json_Decode_ServiceResponse _); reflexivity.
Qed.

(** [executeCheck] is its first step followed by the check of the services
    that step gave. *)
Lemma executeCheck_servicesToCheck (w : World) :
  executeCheck w =
    match servicesToCheck w with
    | (Done (Ok services), w1) => executeCheck_services services w1
    | (Done (Err err), w1) =>
        (Done (sensu.CheckStateCritical,
               Some ("could not retrieve services: " +++ err)), w1)
    | (Panicked msg, w1) => (Panicked msg, w1)
    end.
Proof.
  unfold executeCheck, servicesToCheck.
  destruct (Z.of_nat (List.length (Services plugin)) =? 0).
  - unfold bind.
    destruct (getAllServices w) as [[[services | err] | msg] w1];
      reflexivity.
  - reflexivity.
Qed.

Lemma servicesToCheck_stdout (w0 w : World) (r : Result (list string)) :
  servicesToCheck w0 = (Done r, w) -> stdout w = stdout w0.
Proof.
  unfold servicesToCheck.
  destruct (Z.of_nat (List.length (Services plugin)) =? 0).
  - rewrite getAllServices_spec.
    destruct (url_Parse _); [now intros [= _ <-] |].
    destruct (transport _ _); [| now intros [= _ <-]].
    destruct (json_Decode_ServiceResponse _); now intros [= _ <-].
  - now intros [= _ <-].
Qed.

Lemma aggregate_app_unknown (l1 l2 : list Z) :
  aggregate (l1 ++ sensu.CheckStateUnknown :: l2) = sensu.CheckStateCritical.
Proof.
  unfold aggregate. rewrite existsb_app. cbn [existsb].
  change (sensu.CheckStateUnknown =? sensu.CheckStateCritical) with false.
  change (sensu.CheckStateUnknown =? sensu.CheckStateUnknown) with true.
  cbn [orb]. now rewrite orb_true_r.
Qed.

(** The check around one service: the services before it were checked,
    it was, and the ones after it all hold a [.]. *)
Lemma executeCheck_around (pre post : list string) (service : string)
  (w0 w w1 w2 : World) (hp : list Health) (h : Health) :
  servicesToCheck w0 = (Done (Ok (pre ++ service :: post)), w) ->
  checkServices pre w = (Done hp, w1) ->
  checkService service w1 = (Done h, w2) ->
  forallb has_dot post = true ->
  exists hq w3,
    checkServices post w2 = (Done hq, w3)
    /\ Forall2 produced post hq
    /\ stdout w3 = stdout w0
    /\ executeCheck w0
       = (Done (aggregate (map Status (hp ++ h :: hq)), None),
          printed w3 (flat_map report (hp ++ h :: hq)
                      ++ closing (hp ++ h :: hq))).
Proof.
  intros Hto Hpre Hsvc Hpost.
  destruct (checkServices_total post w2 Hpost) as (hq & w3 & Hq & Hall & _).
  assert (Hall' : checkServices (pre ++ service :: post) w
                  = (Done (hp ++ h :: hq), w3)).
  { rewrite (checkServices_app pre (service :: post) w w1 hp Hpre).
    rewrite checkServices_cons, Hsvc, Hq. reflexivity. }
  exists hq, w3. split; [assumption | split; [assumption | split]].
  - rewrite (proj2 (checkServices_produced _ _ _ _ Hall')).
    exact (servicesToCheck_stdout _ _ _ Hto).
  - rewrite executeCheck_servicesToCheck, Hto.
    now apply executeCheck_services_spec.
Qed.

Lemma existsb_Status (p : Z -> bool) (P : Z -> Prop) (hs : list Health) :
  (forall st, p st = true <-> P st) ->
  existsb p (map Status hs) = true <-> Exists (fun h => P (Status h)) hs.
Proof.
  intros Hp. induction hs as [| h hs IH]; cbn [map existsb].
  - split; [discriminate | intros H; inversion H].
  - rewrite orb_true_iff, Exists_cons, IH, Hp. reflexivity.
Qed.

Lemma aggregate_cases (hs : list Health) :
  (Exists (fun h => Status h = sensu.CheckStateCritical
                    \/ Status h = sensu.CheckStateUnknown) hs ->
   aggregate (map Status hs) = sensu.CheckStateCritical)
  /\ (~ Exists (fun h => Status h = sensu.CheckStateCritical
                         \/ Status h = sensu.CheckStateUnknown) hs ->
      Exists (fun h => Status h = sensu.CheckStateWarning) hs ->
      aggregate (map Status hs) = sensu.CheckStateWarning)
  /\ (~ Exists (fun h => Status h = sensu.CheckStateCritical
                         \/ Status h = sensu.CheckStateUnknown) hs ->
      ~ Exists (fun h => Status h = sensu.CheckStateWarning) hs ->
      aggregate (map Status hs) = sensu.CheckStateOK).
Proof.
  pose proof (existsb_Status
                (fun st => (st =? sensu.CheckStateCritical)
                           || (st =? sensu.CheckStateUnknown))
                (fun st => st = sensu.CheckStateCritical
                           \/ st = sensu.CheckStateUnknown) hs) as Hcu.
  pose proof (existsb_Status
                (fun st => st =? sensu.CheckStateWarning)
                (fun st => st = sensu.CheckStateWarning) hs) as Hw.
  cbv beta in Hcu, Hw.
  assert (Hcu' := Hcu (fun st =>
    conj (fun H => match proj1 (orb_true_iff _ _) H with
                   | or_introl E => or_introl (proj1 (Z.eqb_eq _ _) E)
                   | or_intror E => or_intror (proj1 (Z.eqb_eq _ _) E)
                   end)
         (fun H => proj2 (orb_true_iff _ _)
                     match H with
                     | or_introl E => or_introl (proj2 (Z.eqb_eq _ _) E)
                     | or_intror E => or_intror (proj2 (Z.eqb_eq _ _) E)
                     end))).
  assert (Hw' := Hw (fun st => Z.eqb_eq st sensu.CheckStateWarning)).
  clear Hcu Hw. unfold aggregate.
  destruct (existsb (fun st => (st =? sensu.CheckStateCritical)
                               || (st =? sensu.CheckStateUnknown))
              (map Status hs)) eqn:Ecu.
  - split; [reflexivity | split]; intros Hn; exfalso; apply Hn;
      now apply Hcu'.
  - assert (Hno : ~ Exists (fun h => Status h = sensu.CheckStateCritical
                                     \/ Status h = sensu.CheckStateUnknown)
                      hs).
    { intros H. apply Hcu' in H. congruence. }
    destruct (existsb (fun st => st =? sensu.CheckStateWarning)
                (map Status hs)) eqn:Ew.
    + split; [intros H; contradiction | split; [reflexivity |]].
      intros _ Hn. exfalso. apply Hn. now apply Hw'.
    + split; [intros H; contradiction | split; [| reflexivity]].
      intros _ H. apply Hw' in H. congruence.
Qed.

(** C1: for the health values [executeCheck] collects, its result is
    CRITICAL if any of them is CRITICAL or UNKNOWN; otherwise WARNING if any
    is WARNING; otherwise OK. *)
Theorem executeCheck_aggregate (w0 w w1 : World) (services : list string)
  (hs : list Health) :
  servicesToCheck w0 = (Done (Ok services), w) ->
  checkServices services w = (Done hs, w1) ->
  exists code w2,
    executeCheck w0 = (Done (code, None), w2)
    /\ (Exists (fun h => Status h = sensu.CheckStateCritical
                         \/ Status h = sensu.CheckStateUnknown) hs ->
        code = sensu.CheckStateCritical)
    /\ (~ Exists (fun h => Status h = sensu.CheckStateCritical
                           \/ Status h = sensu.CheckStateUnknown) hs ->
        Exists (fun h => Status h = sensu.CheckStateWarning) hs ->
        code = sensu.CheckStateWarning)
    /\ (~ Exists (fun h => Status h = sensu.CheckStateCritical
                           \/ Status h = sensu.CheckStateUnknown) hs ->
        ~ Exists (fun h => Status h = sensu.CheckStateWarning) hs ->
        code = sensu.CheckStateOK).
Proof.
  intros Hto Hcs.
  exists (aggregate (map Status hs)).
  eexists. split.
  - rewrite executeCheck_servicesToCheck, Hto.
    exact (executeCheck_services_spec _ _ _ _ Hcs).
  - apply aggregate_cases.
Qed.

Lemma closing_app_unknown (hp hq : list Health) (h : Health) :
  Status h = sensu.CheckStateUnknown ->
  closing (hp ++ h :: hq) = [].
Proof.
  intros Hu. unfold closing.
  rewrite map_app. cbn [map]. rewrite Hu, aggregate_app_unknown.
  reflexivity.
Qed.

(** The check around a service whose health came out unknown. *)
Lemma executeCheck_around_unknown (pre post : list string) (service : string)
  (w0 w w1 w2 : World) (hp : list Health) (h : Health) :
  servicesToCheck w0 = (Done (Ok (pre ++ service :: post)), w) ->
  checkServices pre w = (Done hp, w1) ->
  checkService service w1 = (Done h, w2) ->
  Status h = sensu.CheckStateUnknown ->
  forallb has_dot post = true ->
  exists hq w3,
    checkServices post w2 = (Done hq, w3)
    /\ Forall2 produced post hq
    /\ stdout w3 = stdout w0
    /\ executeCheck w0
       = (Done (sensu.CheckStateCritical, None),
          printed w3 (flat_map report hp ++ report h ++ flat_map report hq)).
Proof.
  intros Hto Hpre Hsvc Hu Hpost.
  destruct (executeCheck_around pre post service w0 w w1 w2 hp h
              Hto Hpre Hsvc Hpost) as (hq & w3 & Hq & Hall & Hout & Hrun).
  exists hq, w3. repeat split; [assumption | assumption | assumption |].
  rewrite Hrun, (closing_app_unknown _ _ _ Hu), app_nil_r.
  rewrite map_app. cbn [map]. rewrite Hu, aggregate_app_unknown.
  rewrite flat_map_app. cbn [flat_map]. reflexivity.
Qed.

(** C3: a health request answered with a code other than 200 leaves that
    service UNKNOWN; the services after it are still checked, the result is
    CRITICAL, and the one line printed for the service names it with
    UNKNOWN. *)
Theorem checkService_not_200 (pre post : list string) (service : string)
  (w0 w w1 : World) (hp : list Health) (resp : Response) :
  servicesToCheck w0 = (Done (Ok (pre ++ service :: post)), w) ->
  checkServices pre w = (Done hp, w1) ->
  forallb has_dot (service :: post) = true ->
  url_Parse (URL (healthRequest service)) = None ->
  transport (List.length (requests w1)) (healthRequest service) = Ok resp ->
  StatusCode resp <> 200 ->
  exists hq w3,
    checkService service w1
    = (Done (unknownHealth service), sent w1 (healthRequest service))
    /\ checkServices post (sent w1 (healthRequest service)) = (Done hq, w3)
    /\ Forall2 produced post hq
    /\ stdout w3 = stdout w0
    /\ executeCheck w0
       = (Done (sensu.CheckStateCritical, None),
          printed w3 (flat_map report hp
                      ++ [service +++ " UNKNOWN" +++ newline]
                      ++ flat_map report hq)).
Proof.
  intros Hto Hpre Hall Hurl Hresp Hcode.
  cbn [forallb] in Hall. apply andb_true_iff in Hall.
  destruct Hall as [Hdot Hpost].
  assert (Hsvc : checkService service w1
                 = (Done (unknownHealth service),
                    sent w1 (healthRequest service))).
  { rewrite (checkService_dot _ _ Hdot), Hurl, Hresp.
    now rewrite (proj2 (Z.eqb_neq _ _) Hcode). }
  destruct (executeCheck_around_unknown pre post service w0 w w1 _ hp _
              Hto Hpre Hsvc eq_refl Hpost)
    as (hq & w3 & Hq & Hprod & Hout & Hrun).
  exists hq, w3. repeat split; assumption.
Qed.

(** C4: with no explicit service list, a failed enumeration request, or an
    answer to it that does not decode, ends the check with a CRITICAL
    result and an error; the enumeration request is the only request sent
    and nothing is printed. *)
Theorem executeCheck_enumeration_fails (w : World) :
  Services plugin = [] ->
  url_Parse (URL servicesRequest) = None ->
  (exists err,
      transport (List.length (requests w)) servicesRequest = Err err)
  \/ (exists resp err,
         transport (List.length (requests w)) servicesRequest = Ok resp
         /\ json_Decode_ServiceResponse (Body resp) = Err err) ->
  exists err,
    executeCheck w
    = (Done (sensu.CheckStateCritical,
             Some ("could not retrieve services: " +++ err)),
       sent w servicesRequest).
Proof.
  intros Hnone Hurl Hfail.
  rewrite executeCheck_servicesToCheck. unfold servicesToCheck.
  rewrite Hnone. cbn [List.length Z.of_nat Z.eqb].
  rewrite getAllServices_spec, Hurl.
  destruct Hfail as [[err Herr] | (resp & err & Hresp & Herr)].
  - rewrite Herr. now exists err.
  - rewrite Hresp, Herr.
    now exists ("failed to decode service response: " +++ err).
Qed.

(** C5: a health request that fails, or whose answer does not decode,
    leaves its service UNKNOWN with the error recorded against it and
    printed after its line; the services after it are still checked and the
    check returns its result without an error of its own. *)
Theorem checkService_failure_attributed (pre post : list string)
  (service : string) (w0 w w1 : World) (hp : list Health) :
  servicesToCheck w0 = (Done (Ok (pre ++ service :: post)), w) ->
  checkServices pre w = (Done hp, w1) ->
  forallb has_dot (service :: post) = true ->
  url_Parse (URL (healthRequest service)) = None ->
  (exists err,
      transport (List.length (requests w1)) (healthRequest service) = Err err)
  \/ (exists resp err,
         transport (List.length (requests w1)) (healthRequest service)
         = Ok resp
         /\ StatusCode resp = 200
         /\ json_Decode_HealthResponse (Body resp) = Err err) ->
  exists err hq w3,
    checkService service w1
    = (Done {| ServiceGroup := service;
               Status := sensu.CheckStateUnknown;
               Error := Some err |},
       sent w1 (healthRequest service))
    /\ checkServices post (sent w1 (healthRequest service)) = (Done hq, w3)
    /\ Forall2 produced post hq
    /\ stdout w3 = stdout w0
    /\ executeCheck w0
       = (Done (sensu.CheckStateCritical, None),
          printed w3 (flat_map report hp
                      ++ [service +++ " UNKNOWN" +++ newline;
                          "Error occured while checking service:" +++ newline
                          +++ err +++ newline]
                      ++ flat_map report hq)).
Proof.
  intros Hto Hpre Hall Hurl Hfail.
  cbn [forallb] in Hall. apply andb_true_iff in Hall.
  destruct Hall as [Hdot Hpost].
  assert (Hsvc : exists err,
             checkService service w1
             = (Done (set_Error (unknownHealth service) err),
                sent w1 (healthRequest service))).
  { rewrite (checkService_dot _ _ Hdot), Hurl.
    destruct Hfail as [[err Herr] | (resp & err & Hresp & Hcode & Herr)].
    - rewrite Herr. now exists err.
    - rewrite Hresp, Hcode, Herr. cbn [Z.eqb Pos.eqb].
      now exists ("failed to decode health response: " +++ err). }
  destruct Hsvc as [err Hsvc].
  destruct (executeCheck_around_unknown pre post service w0 w w1 _ hp _
              Hto Hpre Hsvc eq_refl Hpost)
    as (hq & w3 & Hq & Hprod & Hout & Hrun).
  exists err, hq, w3. repeat split; assumption.
Qed.

Lemma report_ok (service : string) (h : Health) :
  produced service h ->
  Status h = sensu.CheckStateOK ->
  report h = [].
Proof.
  intros (_ & _ & Herr) Hok.
  unfold report, statusLine, errorDetail.
  rewrite Herr by (rewrite Hok; discriminate).
  rewrite Hok. reflexivity.
Qed.

Lemma all_ok (services : list string) (hs : list Health) :
  Forall2 produced services hs ->
  Forall (fun h => Status h = sensu.CheckStateOK) hs ->
  flat_map report hs = []
  /\ aggregate (map Status hs) = sensu.CheckStateOK.
Proof.
  induction 1 as [| service h services hs Hprod Hall IH]; intros Hok.
  - split; reflexivity.
  - inversion Hok as [| ? ? Hh Hhs]; subst.
    destruct (IH Hhs) as [Hrep Hagg]. split.
    + cbn [flat_map]. now rewrite (report_ok _ _ Hprod Hh), Hrep.
    + unfold aggregate in *. cbn [map existsb]. rewrite Hh.
      cbn [sensu.CheckStateOK sensu.CheckStateCritical
             sensu.CheckStateUnknown sensu.CheckStateWarning Z.eqb orb].
      exact Hagg.
Qed.

(** C6: when every service checked is OK the result is OK and one message
    is all that is printed: "No services loaded" when there was no service
    to check, "All health checks returning OK for loaded services" when
    there was one or more; the two messages differ. *)
Theorem executeCheck_ok_message (w0 w w1 : World) (services : list string)
  (hs : list Health) :
  servicesToCheck w0 = (Done (Ok services), w) ->
  checkServices services w = (Done hs, w1) ->
  Forall (fun h => Status h = sensu.CheckStateOK) hs ->
  executeCheck w0
  = (Done (sensu.CheckStateOK, None),
     printed w1
       [match services with
        | [] => "No services loaded"
        | _ :: _ => "All health checks returning OK for loaded services"
        end])
  /\ stdout w1 = stdout w0
  /\ "No services loaded"
     <> "All health checks returning OK for loaded services".
Proof.
  intros Hto Hcs Hok.
  destruct (checkServices_produced _ _ _ _ Hcs) as [Hprod Hout].
  split; [| split; [| discriminate]].
  2:{ rewrite Hout. exact (servicesToCheck_stdout _ _ _ Hto). }
  destruct (all_ok _ _ Hprod Hok) as [Hrep Hagg].
  rewrite executeCheck_servicesToCheck, Hto.
  rewrite (executeCheck_services_spec _ _ _ _ Hcs).
  unfold closing. rewrite Hrep, Hagg. cbn [app Z.eqb sensu.CheckStateOK].
  destruct Hprod; reflexivity.
Qed.

Lemma toLower_simpleFold (s t : string) :
  toLower s = t -> is_ascii t = true -> simpleFold s = t.
Proof.
  intros <- Hascii. apply simpleFold_ascii. now apply toLower_ascii.
Qed.

(** C7: the status text of a decoded health answer is read without regard
    to case into one of the four check states, and a text that matches none
    of the four words gives UNKNOWN, the state set before the comparison. *)
Theorem checkService_status (service : string) (w : World) (resp : Response)
  (hResp : HealthResponse) :
  has_dot service = true ->
  url_Parse (URL (healthRequest service)) = None ->
  transport (List.length (requests w)) (healthRequest service) = Ok resp ->
  StatusCode resp = 200 ->
  json_Decode_HealthResponse (Body resp) = Ok hResp ->
  exists h,
    checkService service w = (Done h, sent w (healthRequest service))
    /\ ServiceGroup h = service
    /\ Error h = None
    /\ Status h = healthOf (RespStatus hResp)
    /\ (toLower (RespStatus hResp) = "ok" ->
        Status h = sensu.CheckStateOK)
    /\ (toLower (RespStatus hResp) = "warning" ->
        Status h = sensu.CheckStateWarning)
    /\ (toLower (RespStatus hResp) = "critical" ->
        Status h = sensu.CheckStateCritical)
    /\ (toLower (RespStatus hResp) = "unknown" ->
        Status h = sensu.CheckStateUnknown)
    /\ (strings.EqualFold (RespStatus hResp) "ok" = false ->
        strings.EqualFold (RespStatus hResp) "warning" = false ->
        strings.EqualFold (RespStatus hResp) "critical" = false ->
        strings.EqualFold (RespStatus hResp) "unknown" = false ->
        Status h = sensu.CheckStateUnknown)
    /\ (Status h = sensu.CheckStateOK
        \/ Status h = sensu.CheckStateWarning
        \/ Status h = sensu.CheckStateCritical
        \/ Status h = sensu.CheckStateUnknown).
Proof.
  intros Hdot Hurl Hresp Hcode Hdec.
  eexists. split.
  { rewrite (checkService_dot _ _ Hdot), Hurl, Hresp, Hcode, Hdec.
    cbn [Z.eqb Pos.eqb]. rewrite EqualFold_chain. reflexivity. }
  cbn [set_Status unknownHealth ServiceGroup Error Status].
  repeat split.
  - intros H. unfold healthOf.
    now rewrite (toLower_simpleFold _ _ H eq_refl).
  - intros H. unfold healthOf.
    now rewrite (toLower_simpleFold _ _ H eq_refl).
  - intros H. unfold healthOf.
    now rewrite (toLower_simpleFold _ _ H eq_refl).
  - intros H. unfold healthOf.
    now rewrite (toLower_simpleFold _ _ H eq_refl).
  - intros H1 H2 H3 _. rewrite <- EqualFold_chain.
    now rewrite H1, H2, H3.
  - apply healthOf_cases.
Qed.

Lemma report_produced (service : string) (h : Health) :
  produced service h ->
  (Status h = sensu.CheckStateOK -> report h = [])
  /\ (Status h <> sensu.CheckStateOK ->
      exists word,
        (Status h = sensu.CheckStateWarning /\ word = "WARNING"
         \/ Status h = sensu.CheckStateCritical /\ word = "CRITICAL"
         \/ Status h = sensu.CheckStateUnknown /\ word = "UNKNOWN")
        /\ report h
           = (service +++ " " +++ word +++ newline) :: errorDetail h).
Proof.
  intros Hprod. split; [now apply report_ok with service |].
  destruct Hprod as (Hgroup & Hst & _). intros Hnot.
  unfold report, statusLine. rewrite Hgroup.
  destruct Hst as [H | [H | [H | H]]]; [contradiction | | |]; rewrite H.
  - exists "WARNING". split; [now left | reflexivity].
  - exists "CRITICAL". split; [now right; left | reflexivity].
  - exists "UNKNOWN". split; [now right; right | reflexivity].
Qed.

(** C9: what the check prints is, service by service in order, nothing for
    a service that is OK and, for a service that is not, one line with its
    group and the word WARNING, CRITICAL or UNKNOWN (followed by the
    detail of its error when its request failed); the closing message comes
    last and only when the result is OK. *)
Theorem executeCheck_lines (w0 w w1 : World) (services : list string)
  (hs : list Health) :
  servicesToCheck w0 = (Done (Ok services), w) ->
  checkServices services w = (Done hs, w1) ->
  exists r w2,
    executeCheck w0 = (Done r, w2)
    /\ stdout w2 = stdout w0 ++ flat_map report hs ++ closing hs
    /\ Forall2
         (fun service h =>
            ServiceGroup h = service
            /\ (Status h = sensu.CheckStateOK -> report h = [])
            /\ (Status h <> sensu.CheckStateOK ->
                exists word,
                  (Status h = sensu.CheckStateWarning /\ word = "WARNING"
                   \/ Status h = sensu.CheckStateCritical
                      /\ word = "CRITICAL"
                   \/ Status h = sensu.CheckStateUnknown
                      /\ word = "UNKNOWN")
                  /\ report h
                     = (service +++ " " +++ word +++ newline)
                       :: errorDetail h))
         services hs.
Proof.
  intros Hto Hcs.
  destruct (checkServices_produced _ _ _ _ Hcs) as [Hprod Hout].
  do 2 eexists. split; [| split].
  - rewrite executeCheck_servicesToCheck, Hto.
    exact (executeCheck_services_spec _ _ _ _ Hcs).
  - cbn [printed stdout].
    now rewrite Hout, (servicesToCheck_stdout _ _ _ Hto).
  - clear Hcs Hto Hout. induction Hprod as [| service h ? ? Hh _ IH];
      constructor; [| exact IH].
    split; [apply Hh | apply (report_produced _ _ Hh)].
Qed.

(** ** Arguments *)

Lemma SplitN_dot_length (s : string) :
  (Z.of_nat (List.length (strings.SplitN s "." 2)) =? 2) = has_dot s.
Proof. rewrite SplitN_dot. now destruct (has_dot s). Qed.

Lemma checkArgs_loop_spec (services : list string) :
  (Forall (fun s => has_dot s = true) services ->
   checkArgs_loop services = None)
  /\ (Exists (fun s => has_dot s = false) services ->
      exists err,
        checkArgs_loop services = Some (sensu.CheckStateWarning, Some err)).
Proof.
  induction services as [| service rest [IHall IHex]].
  - split; [reflexivity | intros H; inversion H].
  - cbn [checkArgs_loop]. rewrite SplitN_dot_length. split.
    + intros H. inversion H as [| ? ? Hs Hrest]; subst.
      rewrite Hs. cbn [negb]. now apply IHall.
    + intros H. destruct (has_dot service) eqn:Hs; cbn [negb].
      * inversion H as [? ? Hno | ? ? Hrest]; subst; [congruence |].
        now apply IHex.
      * eexists. reflexivity.
Qed.

Lemma Forall_or_Exists_dot (services : list string) :
  Forall (fun s => has_dot s = true) services
  \/ Exists (fun s => has_dot s = false) services.
Proof.
  induction services as [| service rest [IH | IH]].
  - left. constructor.
  - destruct (has_dot service) eqn:Hs.
    + left. now constructor.
    + right. now constructor.
  - right. now apply Exists_cons_tl.
Qed.

Lemma Forall_not_Exists_dot (services : list string) :
  Forall (fun s => has_dot s = true) services ->
  ~ Exists (fun s => has_dot s = false) services.
Proof.
  intros Hall Hex. apply Exists_exists in Hex.
  destruct Hex as (s & Hin & Hs).
  rewrite Forall_forall in Hall. specialize (Hall s Hin). congruence.
Qed.

Lemma checkArgs_services_guard :
  (if Z.of_nat (List.length (Services plugin)) >? 0
   then checkArgs_loop (Services plugin)
   else None)
  = checkArgs_loop (Services plugin).
Proof.
  destruct (Services plugin) as [| service rest]; [reflexivity |].
  assert (H : (Z.of_nat (List.length (service :: rest)) >? 0) = true).
  { apply Z.gtb_lt. cbn [List.length]. lia. }
  now rewrite H.
Qed.

(** C2, as the code has it: [checkArgs] gives a WARNING result with an
    error exactly when some supplied identifier holds no [.] or the
    supervisor URL does not parse, and the OK result without error
    otherwise; an identifier with an empty part or a further [.] is let
    through. *)
Theorem checkArgs_spec :
  ((exists err, checkArgs = (sensu.CheckStateWarning, Some err))
   <-> (Exists (fun s => has_dot s = false) (Services plugin)
        \/ url_Parse (SupervisorURL plugin) <> None))
  /\ (checkArgs = (sensu.CheckStateOK, None)
      <-> (Forall (fun s => has_dot s = true) (Services plugin)
           /\ url_Parse (SupervisorURL plugin) = None)).
Proof.
  unfold checkArgs. rewrite checkArgs_services_guard.
  destruct (checkArgs_loop_spec (Services plugin)) as [Hall Hex].
  destruct (Forall_or_Exists_dot (Services plugin)) as [HF | HE].
  - rewrite (Hall HF).
    pose proof (Forall_not_Exists_dot _ HF) as Hno.
    destruct (url_Parse (SupervisorURL plugin)) as [err |].
    + split; split.
      * intros _. right. discriminate.
      * intros _. eexists. reflexivity.
      * discriminate.
      * intros [_ H]. discriminate.
    + split; split.
      * intros [err H]. discriminate.
      * intros [H | H]; [contradiction | congruence].
      * intros _. now split.
      * reflexivity.
  - destruct (Hex HE) as [err Herr]. rewrite Herr.
    split; split.
    + intros _. now left.
    + intros _. now exists err.
    + discriminate.
    + intros [HF _]. exfalso.
      exact (Forall_not_Exists_dot _ HF HE).
Qed.

(** ** The index into the split *)

Lemma servicesToCheck_enumerated (w w1 : World) (services : list string) :
  Services plugin = [] ->
  getAllServices w = (Done (Ok services), w1) ->
  servicesToCheck w = (Done (Ok services), w1).
Proof.
  intros Hnone Hget. unfold servicesToCheck. now rewrite Hnone.
Qed.

Lemma checkServices_no_dot (services : list string) :
  forall w : World,
    forallb has_dot services = false ->
    exists w',
      checkServices services w
      = (Panicked "runtime error: index out of range", w').
Proof.
  induction services as [| service rest IH]; intros w Hsome;
    [discriminate |].
  rewrite checkServices_cons. cbn [forallb] in Hsome.
  destruct (has_dot service) eqn:Hdot.
  - destruct (checkService_total service w Hdot) as (h & w1 & Hh & _).
    rewrite Hh. destruct (IH w1 Hsome) as [w2 Hrest].
    rewrite Hrest. now exists w2.
  - rewrite (checkService_no_dot _ _ Hdot). now exists w.
Qed.

(** C10: [checkService] indexes the second piece of the split without
    looking at its length: the index is in range, and the function returns,
    exactly when the service holds a [.]; otherwise it panics before any
    request is sent.  [checkServices] returns exactly when every service
    holds a [.].  The groups of an enumeration reach [checkService] as the
    supervisor gave them, so one without a [.] makes [executeCheck] panic,
    whatever [checkArgs] said of the explicit list, which is empty then. *)
Theorem checkService_index_safe :
  (forall service : string,
      nth_error (strings.SplitN service "." 2) 1 = None
      <-> has_dot service = false)
  /\ (forall (service : string) (w : World),
        (has_dot service = false ->
         checkService service w
         = (Panicked "runtime error: index out of range", w))
        /\ (has_dot service = true ->
            exists h w', checkService service w = (Done h, w')))
  /\ (forall (services : list string) (w : World),
        (exists hs w', checkServices services w = (Done hs, w'))
        <-> forallb has_dot services = true)
  /\ (forall (services : list string) (w w1 : World),
        Services plugin = [] ->
        getAllServices w = (Done (Ok services), w1) ->
        forallb has_dot services = false ->
        exists w2,
          executeCheck w
          = (Panicked "runtime error: index out of range", w2)).
Proof.
  split; [| split; [| split]].
  - intros service. rewrite SplitN_dot.
    destruct (has_dot service); cbn; split; congruence.
  - intros service w. split.
    + apply checkService_no_dot.
    + intros Hdot.
      destruct (checkService_total service w Hdot) as (h & w' & Hh & _).
      now exists h, w'.
  - intros services w. split.
    + intros (hs & w' & H). exact (checkServices_done _ _ _ _ H).
    + intros H.
      destruct (checkServices_total services w H) as (hs & w' & Hcs & _).
      now exists hs, w'.
  - intros services w w1 Hnone Hget Hsome.
    rewrite executeCheck_servicesToCheck.
    rewrite (servicesToCheck_enumerated _ _ _ Hnone Hget).
    destruct (checkServices_no_dot services w1 Hsome) as [w2 Hpanic].
    exists w2. unfold executeCheck_services, bind. now rewrite Hpanic.
Qed.

(** ** Further properties of the current version *)

Lemma aggregate_range (statuses : list Z) :
  aggregate statuses = sensu.CheckStateOK
  \/ aggregate statuses = sensu.CheckStateWarning
  \/ aggregate statuses = sensu.CheckStateCritical.
Proof.
  unfold aggregate.
  destruct (existsb _ statuses); [now right; right |].
  destruct (existsb _ statuses); [now right; left | now left].
Qed.

Lemma executeCheck_services_panics (services : list string) (w w1 : World)
  (msg : string) :
  checkServices services w = (Panicked msg, w1) ->
  executeCheck_services services w = (Panicked msg, w1).
Proof.
  intros H. unfold executeCheck_services, bind. now rewrite H.
Qed.

Lemma servicesToCheck_error (w w1 : World) (err : error) :
  servicesToCheck w = (Done (Err err), w1) ->
  Services plugin = []
  /\ stdout w1 = stdout w
  /\ (w1 = w \/ w1 = sent w servicesRequest).
Proof.
  unfold servicesToCheck.
  destruct (Services plugin) as [| service rest]; [| discriminate].
  cbn [List.length Z.of_nat Z.eqb]. rewrite getAllServices_spec.
  destruct (url_Parse _).
  { intros [= _ <-]. repeat split. now left. }
  destruct (transport _ _).
  2:{ intros [= _ <-]. repeat split. now right. }
  destruct (json_Decode_ServiceResponse _); [discriminate |].
  intros [= _ <-]. repeat split. now right.
Qed.

(** X1: the result of [executeCheck] is OK, WARNING or CRITICAL, never UNKNOWN.
    It comes with an error only as CRITICAL, only when the services had to
    be enumerated, and then nothing was printed and no health request sent. *)
Theorem executeCheck_result_codes (w w' : World) (code : Z)
  (err : option error) :
  executeCheck w = (Done (code, err), w') ->
  (code = sensu.CheckStateOK \/ code = sensu.CheckStateWarning
   \/ code = sensu.CheckStateCritical)
  /\ (err <> None ->
      code = sensu.CheckStateCritical
      /\ Services plugin = []
      /\ stdout w' = stdout w
      /\ (w' = w \/ w' = sent w servicesRequest)).
Proof.
  rewrite executeCheck_servicesToCheck.
  destruct (servicesToCheck w) as [[[services | e] | msg] w1] eqn:Hto.
  - destruct (checkServices services w1) as [[hs | msg] w2] eqn:Hcs.
    + rewrite (executeCheck_services_spec _ _ _ _ Hcs).
      intros [= <- <- <-]. split; [apply aggregate_range |].
      intros H. now contradiction H.
    + rewrite (executeCheck_services_panics _ _ _ _ Hcs). discriminate.
  - intros [= <- <- <-]. split; [now right; right |]. intros _.
    split; [reflexivity |]. exact (servicesToCheck_error _ _ _ Hto).
  - discriminate.
Qed.

(** X2: a health other than UNKNOWN is only ever read off an answer: the request
    was sent, answered with code 200, and the body decoded; no error is
    recorded with it. *)
Theorem checkService_definite (service : string) (w w' : World) (h : Health) :
  checkService service w = (Done h, w') ->
  Status h <> sensu.CheckStateUnknown ->
  exists resp hResp,
    url_Parse (URL (healthRequest service)) = None
    /\ transport (List.length (requests w)) (healthRequest service) = Ok resp
    /\ StatusCode resp = 200
    /\ json_Decode_HealthResponse (Body resp) = Ok hResp
    /\ Status h = healthOf (RespStatus hResp)
    /\ Error h = None
    /\ w' = sent w (healthRequest service).
Proof.
  destruct (has_dot service) eqn:Hdot.
  2:{ rewrite (checkService_no_dot _ _ Hdot). discriminate. }
  rewrite (checkService_dot _ _ Hdot).
  destruct (url_Parse _) as [e |].
  { intros [= <- <-] H. now contradiction H. }
  destruct (transport _ _) as [resp | e].
  2:{ intros [= <- <-] H. now contradiction H. }
  destruct (Z.eqb_spec (StatusCode resp) 200) as [Hcode | Hcode].
  2:{ intros [= <- <-] H. now contradiction H. }
  destruct (json_Decode_HealthResponse _) as [hResp | e] eqn:Hdec.
  2:{ intros [= <- <-] H. now contradiction H. }
  rewrite EqualFold_chain. intros [= <- <-] _.
  exists resp, hResp. repeat split; assumption.
Qed.

(** The requests [checkServices] sends are the health requests of the
    services whose URL parses, one each, in the order of the services. *)
Lemma checkServices_requests (services : list string) :
  forall (w w' : World) (hs : list Health),
    checkServices services w = (Done hs, w') ->
    requests w'
    = requests w ++ map healthRequest (filter requestable services).
Proof.
  induction services as [| service rest IH]; intros w w' hs.
  - cbn. unfold ret. intros [= _ <-]. now rewrite app_nil_r.
  - rewrite checkServices_cons.
    destruct (has_dot service) eqn:Hdot.
    2:{ rewrite (checkService_no_dot _ _ Hdot). discriminate. }
    destruct (checkService service w) as [[h | msg] w1] eqn:Hsvc;
      [| discriminate].
    destruct (checkServices rest w1) as [[hs' | msg] w2] eqn:Hrest;
      [| discriminate].
    intros [= _ <-]. rewrite (IH _ _ _ Hrest).
    rewrite (checkService_dot _ _ Hdot) in Hsvc.
    cbn [filter]. unfold requestable at 2.
    destruct (url_Parse (URL (healthRequest service))).
    { injection Hsvc as _ <-. reflexivity. }
    assert (Hw1 : w1 = sent w (healthRequest service)).
    { destruct (transport _ _) as [resp |]; [| now injection Hsvc].
      destruct (StatusCode resp =? 200); [| now injection Hsvc].
      destruct (json_Decode_HealthResponse _); now injection Hsvc. }
    rewrite Hw1. cbn [sent requests map]. now rewrite <- app_assoc.
Qed.

Lemma healthRequest_plain_get (services : list string) :
  Forall plain_get (map healthRequest services).
Proof.
  induction services as [| service rest IH]; constructor; [| exact IH].
  split; reflexivity.
Qed.

Lemma Forall2_produced_groups (services : list string) (hs : list Health) :
  Forall2 produced services hs -> map ServiceGroup hs = services.
Proof.
  induction 1 as [| service h ? ? [Hg _] _ IH]; [reflexivity |].
  cbn [map]. now rewrite Hg, IH.
Qed.

Lemma servicesToCheck_explicit (w : World) :
  Services plugin <> [] ->
  servicesToCheck w = (Done (Ok (Services plugin)), w).
Proof.
  intros Hne. unfold servicesToCheck.
  destruct (Services plugin) as [| service rest]; [now contradiction Hne |].
  reflexivity.
Qed.

(** X3: with an explicit list of services the listing is never asked for: the
    requests of a check that returns are the health requests of the listed
    services whose URL parses, one each and in their order, every one a GET
    that accepts JSON; and the check returns no error. *)
Theorem executeCheck_explicit_requests (w w' : World) (code : Z)
  (err : option error) :
  Services plugin <> [] ->
  executeCheck w = (Done (code, err), w') ->
  err = None
  /\ requests w'
     = requests w
       ++ map healthRequest (filter requestable (Services plugin))
  /\ Forall plain_get
       (map healthRequest (filter requestable (Services plugin))).
Proof.
  intros Hne. rewrite executeCheck_servicesToCheck.
  rewrite (servicesToCheck_explicit w Hne).
  destruct (checkServices (Services plugin) w) as [[hs | msg] w1] eqn:Hcs.
  - rewrite (executeCheck_services_spec _ _ _ _ Hcs).
    intros [= <- <- <-]. split; [reflexivity | split].
    + cbn [printed requests]. exact (checkServices_requests _ _ _ _ Hcs).
    + apply healthRequest_plain_get.
  - rewrite (executeCheck_services_panics _ _ _ _ Hcs). discriminate.
Qed.

(** X4: without an explicit list, a listing that decodes is taken whatever the
    status code of its answer: its groups are checked in the order of the
    listing, after the one listing request. *)
Theorem executeCheck_enumerated (w : World) (resp : Response)
  (entries : ServiceResponse) :
  Services plugin = [] ->
  url_Parse (URL servicesRequest) = None ->
  transport (List.length (requests w)) servicesRequest = Ok resp ->
  json_Decode_ServiceResponse (Body resp) = Ok entries ->
  forallb has_dot (map EntryServiceGroup entries) = true ->
  exists hs code w',
    executeCheck w = (Done (code, None), w')
    /\ map ServiceGroup hs = map EntryServiceGroup entries
    /\ code = aggregate (map Status hs)
    /\ stdout w' = stdout w ++ flat_map report hs ++ closing hs
    /\ requests w'
       = requests w
         ++ servicesRequest
            :: map healthRequest
                 (filter requestable (map EntryServiceGroup entries)).
Proof.
  intros Hnone Hurl Hresp Hdec Hdots.
  assert (Hto : servicesToCheck w
                = (Done (Ok (map EntryServiceGroup entries)),
                   sent w servicesRequest)).
  { unfold servicesToCheck. rewrite Hnone. cbn [List.length Z.of_nat Z.eqb].
    now rewrite getAllServices_spec, Hurl, Hresp, Hdec. }
  destruct (checkServices_total _ (sent w servicesRequest) Hdots)
    as (hs & w1 & Hcs & Hprod & Hout).
  exists hs. do 2 eexists. split; [| split; [| split; [| split]]].
  - rewrite executeCheck_servicesToCheck, Hto.
    exact (executeCheck_services_spec _ _ _ _ Hcs).
  - exact (Forall2_produced_groups _ _ Hprod).
  - reflexivity.
  - cbn [printed stdout]. now rewrite Hout.
  - cbn [printed requests].
    rewrite (checkServices_requests _ _ _ _ Hcs).
    cbn [sent requests]. now rewrite <- app_assoc.
Qed.

Lemma Forall2_produced_status (services : list string) (hs : list Health) :
  Forall2 produced services hs ->
  (forall h, In h hs ->
     Status h = sensu.CheckStateOK \/ Status h = sensu.CheckStateWarning
     \/ Status h = sensu.CheckStateCritical
     \/ Status h = sensu.CheckStateUnknown)
  /\ (forall h, In h hs ->
        Status h <> sensu.CheckStateUnknown -> Error h = None).
Proof.
  induction 1 as [| service h ? ? (_ & Hst & Herr) _ [IH1 IH2]].
  - split; intros h [].
  - split; intros h' [<- | Hin]; auto.
Qed.

Lemma checkArgs_loop_first (pre post : list string) (service : string) :
  forallb has_dot pre = true ->
  has_dot service = false ->
  checkArgs_loop (pre ++ service :: post)
  = Some (sensu.CheckStateWarning,
          Some ("--service " +++ strconv_Quote service
                +++ " value malformed should be " +++ dquote
                +++ "service_name.service_group" +++ dquote)).
Proof.
  intros Hpre Hs. induction pre as [| p pre IH].
  - cbn [app checkArgs_loop]. now rewrite SplitN_dot_length, Hs.
  - cbn [forallb] in Hpre. apply andb_true_iff in Hpre.
    destruct Hpre as [Hp Hpre].
    cbn [app checkArgs_loop]. rewrite SplitN_dot_length, Hp.
    cbn [negb]. now apply IH.
Qed.

(** X5: [checkArgs] reports the first identifier without a [.], by name; the
    identifiers after it and the supervisor URL are not looked at. *)
Theorem checkArgs_first_malformed (pre post : list string) (service : string) :
  Services plugin = pre ++ service :: post ->
  forallb has_dot pre = true ->
  has_dot service = false ->
  checkArgs
  = (sensu.CheckStateWarning,
     Some ("--service " +++ strconv_Quote service
           +++ " value malformed should be " +++ dquote
           +++ "service_name.service_group" +++ dquote)).
Proof.
  intros Hsvcs Hpre Hs. unfold checkArgs.
  rewrite checkArgs_services_guard, Hsvcs.
  now rewrite (checkArgs_loop_first pre post service Hpre Hs).
Qed.

Lemma Forall_forallb_dot (services : list string) :
  Forall (fun s => has_dot s = true) services ->
  forallb has_dot services = true.
Proof.
  induction 1 as [| s services Hs _ IH]; [reflexivity |].
  cbn [forallb]. now rewrite Hs, IH.
Qed.

Lemma checkArgs_ok_dots :
  checkArgs = (sensu.CheckStateOK, None) ->
  forallb has_dot (Services plugin) = true.
Proof.
  unfold checkArgs. rewrite checkArgs_services_guard.
  destruct (checkArgs_loop_spec (Services plugin)) as [_ Hex].
  destruct (Forall_or_Exists_dot (Services plugin)) as [HF | HE].
  - intros _. now apply Forall_forallb_dot.
  - destruct (Hex HE) as [err Herr]. rewrite Herr. discriminate.
Qed.

(** X6: arguments that passed [checkArgs] with an explicit list make a check
    that cannot fail on them: [executeCheck] returns, without an error, one
    health per listed service. *)
Theorem checkArgs_ok_executeCheck_returns (w : World) :
  checkArgs = (sensu.CheckStateOK, None) ->
  Services plugin <> [] ->
  exists hs code w',
    executeCheck w = (Done (code, None), w')
    /\ map ServiceGroup hs = Services plugin
    /\ code = aggregate (map Status hs)
    /\ stdout w' = stdout w ++ flat_map report hs ++ closing hs.
Proof.
  intros Hargs Hne.
  destruct (checkServices_total _ w (checkArgs_ok_dots Hargs))
    as (hs & w1 & Hcs & Hprod & Hout).
  exists hs. do 2 eexists. split; [| split; [| split]].
  - rewrite executeCheck_servicesToCheck, (servicesToCheck_explicit w Hne).
    exact (executeCheck_services_spec _ _ _ _ Hcs).
  - exact (Forall2_produced_groups _ _ Hprod).
  - reflexivity.
  - cbn [printed stdout]. now rewrite Hout.
Qed.

Lemma existsb_Status_In (p : Z -> bool) (hs : list Health) :
  existsb p (map Status hs) = true ->
  exists h, In h hs /\ p (Status h) = true.
Proof.
  induction hs as [| h hs IH]; cbn [map existsb]; [discriminate |].
  intros H. apply orb_true_iff in H. destruct H as [H | H].
  - exists h. split; [now left | exact H].
  - destruct (IH H) as (h' & Hin & Hp). exists h'. split; [now right | exact Hp].
Qed.

Lemma statusLine_In (h : Health) (hs : list Health) (word : string) :
  In h hs ->
  statusWord (Status h) = Some word ->
  In (ServiceGroup h +++ " " +++ word +++ newline) (flat_map report hs).
Proof.
  intros Hin Hword. apply in_flat_map. exists h. split; [exact Hin |].
  unfold report, statusLine. rewrite Hword. now left.
Qed.

(** X7: a result that is not OK is never silent: with WARNING some service has
    its WARNING line in the output of the check, with CRITICAL (and no
    error) some service has its CRITICAL or UNKNOWN line; and the output
    of an OK result is one of the two closing messages alone. *)
Theorem executeCheck_result_explained (w w' : World) (code : Z) :
  executeCheck w = (Done (code, None), w') ->
  exists lines,
    stdout w' = stdout w ++ lines
    /\ (code = sensu.CheckStateWarning ->
        exists group, In (group +++ " WARNING" +++ newline) lines)
    /\ (code = sensu.CheckStateCritical ->
        exists group,
          In (group +++ " CRITICAL" +++ newline) lines
          \/ In (group +++ " UNKNOWN" +++ newline) lines)
    /\ (code = sensu.CheckStateOK ->
        lines = ["No services loaded"]
        \/ lines = ["All health checks returning OK for loaded services"]).
Proof.
  rewrite executeCheck_servicesToCheck.
  destruct (servicesToCheck w) as [[[services | e] | msg] w1] eqn:Hto;
    [| discriminate | discriminate].
  destruct (checkServices services w1) as [[hs | msg] w2] eqn:Hcs.
  2:{ rewrite (executeCheck_services_panics _ _ _ _ Hcs). discriminate. }
  rewrite (executeCheck_services_spec _ _ _ _ Hcs).
  intros [= <- <-].
  destruct (checkServices_produced _ _ _ _ Hcs) as [Hprod Hout].
  exists (flat_map report hs ++ closing hs).
  split; [| split; [| split]].
  - cbn [printed stdout].
    now rewrite Hout, (servicesToCheck_stdout _ _ _ Hto).
  - unfold aggregate.
    destruct (existsb (fun st => (st =? sensu.CheckStateCritical)
                                 || (st =? sensu.CheckStateUnknown))
                (map Status hs)); [discriminate |].
    destruct (existsb (fun st => st =? sensu.CheckStateWarning)
                (map Status hs)) eqn:Ew; [| discriminate].
    intros _. destruct (existsb_Status_In _ _ Ew) as (h & Hin & Hst).
    apply Z.eqb_eq in Hst. exists (ServiceGroup h).
    apply in_or_app. left.
    apply (statusLine_In h hs "WARNING" Hin). now rewrite Hst.
  - unfold aggregate.
    destruct (existsb (fun st => (st =? sensu.CheckStateCritical)
                                 || (st =? sensu.CheckStateUnknown))
                (map Status hs)) eqn:Ecu.
    2:{ destruct (existsb (fun st => st =? sensu.CheckStateWarning)
                    (map Status hs)); discriminate. }
    intros _. destruct (existsb_Status_In _ _ Ecu) as (h & Hin & Hst).
    exists (ServiceGroup h). apply orb_true_iff in Hst.
    destruct Hst as [Hst | Hst]; apply Z.eqb_eq in Hst.
    + left. apply in_or_app. left.
      apply (statusLine_In h hs "CRITICAL" Hin). now rewrite Hst.
    + right. apply in_or_app. left.
      apply (statusLine_In h hs "UNKNOWN" Hin). now rewrite Hst.
  - intros Hok.
    assert (Hall : Forall (fun h => Status h = sensu.CheckStateOK) hs).
    { destruct (aggregate_cases hs) as (Hc & Hw & _).
      apply Forall_forall. intros h Hin.
      assert (Hp : In (Status h) (map Status hs)) by now apply in_map.
      clear Hp.
      destruct (proj1 (Forall2_produced_status services hs Hprod) h Hin)
        as [H | [H | [H | H]]]; [exact H | | |]; exfalso.
      - assert (Hnc : ~ Exists
                        (fun h => Status h = sensu.CheckStateCritical
                                  \/ Status h = sensu.CheckStateUnknown) hs).
        { intros Hex. rewrite (Hc Hex) in Hok. discriminate. }
        assert (Hex : Exists (fun h => Status h = sensu.CheckStateWarning) hs)
          by (apply Exists_exists; now exists h).
        rewrite (Hw Hnc Hex) in Hok. discriminate.
      - assert (Hex : Exists
                        (fun h => Status h = sensu.CheckStateCritical
                                  \/ Status h = sensu.CheckStateUnknown) hs)
          by (apply Exists_exists; exists h; split; [exact Hin | now left]).
        rewrite (Hc Hex) in Hok. discriminate.
      - assert (Hex : Exists
                        (fun h => Status h = sensu.CheckStateCritical
                                  \/ Status h = sensu.CheckStateUnknown) hs)
          by (apply Exists_exists; exists h; split; [exact Hin | now right]).
        rewrite (Hc Hex) in Hok. discriminate. }
    destruct (all_ok _ _ Hprod Hall) as [Hrep Hagg].
    rewrite Hrep. unfold closing. rewrite Hagg.
    cbn [Z.eqb sensu.CheckStateOK app].
    destruct hs; [now left | now right].
Qed.

Lemma existsb_Permutation {A} (p : A -> bool) (l1 l2 : list A) :
  Permutation l1 l2 -> existsb p l1 = existsb p l2.
Proof.
  induction 1 as [| x l1 l2 _ IH | x y l | l1 l2 l3 _ IH1 _ IH2].
  - reflexivity.
  - cbn [existsb]. now rewrite IH.
  - cbn [existsb]. now destruct (p x), (p y).
  - now rewrite IH1.
Qed.

Lemma aggregate_Permutation (l1 l2 : list Z) :
  Permutation l1 l2 -> aggregate l1 = aggregate l2.
Proof.
  intros H. unfold aggregate.
  now rewrite !(existsb_Permutation _ l1 l2 H).
Qed.

Lemma aggregate_app_le (l1 l2 : list Z) :
  aggregate l1 <= aggregate (l1 ++ l2).
Proof.
  unfold aggregate. rewrite !existsb_app.
  unfold sensu.CheckStateCritical, sensu.CheckStateWarning,
    sensu.CheckStateOK.
  destruct (existsb _ l1); cbn [orb]; [lia |].
  destruct (existsb _ l2); cbn [orb].
  - destruct (existsb _ l1); lia.
  - destruct (existsb _ l1); cbn [orb]; [lia |].
    destruct (existsb _ l2); lia.
Qed.

(** X8: the result depends on which health values were collected and not on
    their order: two runs whose health values are the same up to order
    return the same result. *)
Theorem executeCheck_services_any_order (s1 s2 : list string)
  (wa wa' wb wb' : World) (h1 h2 : list Health) :
  checkServices s1 wa = (Done h1, wa') ->
  checkServices s2 wb = (Done h2, wb') ->
  Permutation (map Status h1) (map Status h2) ->
  fst (executeCheck_services s1 wa) = fst (executeCheck_services s2 wb).
Proof.
  intros H1 H2 Hperm.
  rewrite (executeCheck_services_spec _ _ _ _ H1).
  rewrite (executeCheck_services_spec _ _ _ _ H2).
  cbn [fst]. now rewrite (aggregate_Permutation _ _ Hperm).
Qed.

(** X9: checking further services after the same ones never gives a milder
    result: OK can become WARNING or CRITICAL, WARNING can become CRITICAL,
    never the other way round. *)
Theorem executeCheck_services_monotone (s1 s2 : list string)
  (w w1 w2 : World) (h1 h2 : list Health) :
  checkServices s1 w = (Done h1, w1) ->
  checkServices s2 w1 = (Done h2, w2) ->
  exists c1 c12,
    fst (executeCheck_services s1 w) = Done (c1, None)
    /\ fst (executeCheck_services (s1 ++ s2) w) = Done (c12, None)
    /\ c1 <= c12.
Proof.
  intros H1 H2.
  assert (H12 : checkServices (s1 ++ s2) w = (Done (h1 ++ h2), w2)).
  { now rewrite (checkServices_app s1 s2 w w1 h1 H1), H2. }
  exists (aggregate (map Status h1)), (aggregate (map Status (h1 ++ h2))).
  rewrite (executeCheck_services_spec _ _ _ _ H1).
  rewrite (executeCheck_services_spec _ _ _ _ H12).
  repeat split. rewrite map_app. apply aggregate_app_le.
Qed.

Lemma before_after_dot (s : string) :
  has_dot s = true ->
  s = before_dot s +++ "." +++ after_dot s /\ has_dot (before_dot s) = false.
Proof.
  induction s as [| c s IH]; cbn [has_dot before_dot after_dot];
    [discriminate |].
  destruct (Ascii.eqb_spec c ".") as [-> | Hne].
  - intros _. split; reflexivity.
  - cbn [orb]. intros H. destruct (IH H) as [Heq Hno].
    cbn [String.append has_dot]. split.
    + f_equal. exact Heq.
    + rewrite Hno. now rewrite (proj2 (Ascii.eqb_neq c ".") Hne).
Qed.

(** X10: the name in the path of a health request is the identifier up to its
    first [.], and holds none; the group is all that follows, further dots
    included.  The request is a GET that accepts JSON, sent unless its URL
    does not parse, in which case the error is kept with the service. *)
Theorem checkService_request_path (service : string) (w : World) :
  has_dot service = true ->
  exists name group req,
    service = name +++ "." +++ group
    /\ has_dot name = false
    /\ URL req
       = getSupervisorUrl +++ "/services/" +++ name +++ "/" +++ group
         +++ "/health"
    /\ plain_get req
    /\ match url_Parse (URL req) with
       | None => exists h, checkService service w = (Done h, sent w req)
       | Some err =>
           checkService service w
           = (Done {| ServiceGroup := service;
                      Status := sensu.CheckStateUnknown;
                      Error := Some err |}, w)
       end.
Proof.
  intros Hdot. destruct (before_after_dot service Hdot) as [Heq Hno].
  exists (before_dot service), (after_dot service), (healthRequest service).
  split; [exact Heq | split; [exact Hno | split; [reflexivity | split]]].
  - split; reflexivity.
  - rewrite (checkService_dot _ _ Hdot).
    destruct (url_Parse (URL (healthRequest service))); [reflexivity |].
    destruct (transport _ _) as [resp |]; [| now eexists].
    destruct (StatusCode resp =? 200); [| now eexists].
    destruct (json_Decode_HealthResponse _); now eexists.
Qed.

Lemma checkServices_panic (services : list string) :
  forall (w w' : World) (msg : string),
    checkServices services w = (Panicked msg, w') ->
    msg = "runtime error: index out of range"
    /\ stdout w' = stdout w
    /\ forallb has_dot services = false.
Proof.
  induction services as [| service rest IH]; intros w w' msg.
  - cbn. unfold ret. discriminate.
  - rewrite checkServices_cons. cbn [forallb].
    destruct (has_dot service) eqn:Hdot.
    + destruct (checkService_total service w Hdot)
        as (h & w1 & Hh & _ & Hout & _).
      rewrite Hh.
      destruct (checkServices rest w1) as [[hs | msg'] w2] eqn:Hrest;
        [discriminate |].
      intros [= <- <-]. destruct (IH _ _ _ Hrest) as (Hmsg & Hout2 & Hno).
      split; [exact Hmsg | split; [congruence | exact Hno]].
    + rewrite (checkService_no_dot _ _ Hdot). intros [= <- <-].
      repeat split.
Qed.

(** X11: when [executeCheck] panics it is on the index into the split of a
    service without a [.], and nothing has been printed: the health of the
    services checked before that one is lost with the panic. *)
Theorem executeCheck_panic_silent (w w' : World) (msg : string) :
  executeCheck w = (Panicked msg, w') ->
  msg = "runtime error: index out of range"
  /\ stdout w' = stdout w
  /\ exists services w1,
       servicesToCheck w = (Done (Ok services), w1)
       /\ forallb has_dot services = false.
Proof.
  rewrite executeCheck_servicesToCheck.
  destruct (servicesToCheck w) as [[[services | e] | m] w1] eqn:Hto.
  - destruct (checkServices services w1) as [[hs | m] w2] eqn:Hcs.
    + rewrite (executeCheck_services_spec _ _ _ _ Hcs). discriminate.
    + rewrite (executeCheck_services_panics _ _ _ _ Hcs).
      intros [= <- <-].
      destruct (checkServices_panic _ _ _ _ Hcs) as (Hmsg & Hout & Hno).
      split; [exact Hmsg | split].
      * now rewrite Hout, (servicesToCheck_stdout _ _ _ Hto).
      * now exists services, w1.
  - discriminate.
  - exfalso. revert Hto. unfold servicesToCheck.
    destruct (Z.of_nat (List.length (Services plugin)) =? 0);
      [| discriminate].
    rewrite getAllServices_spec.
    destruct (url_Parse _); [discriminate |].
    destruct (transport _ _); [| discriminate].
    destruct (json_Decode_ServiceResponse _); discriminate.
Qed.

(** ** The earlier versions *)

Lemma tally_app (st : Z) (l1 l2 : list Health) :
  tally st (l1 ++ l2) = tally st l1 + tally st l2.
Proof.
  unfold tally. rewrite map_app, count_occ_app. lia.
Qed.

(** One iteration of the earlier loop prints and counts what the current
    loop does for a recognised status, and only sets [found] for any other. *)
Lemma text_step_spec (status group : string) (c : Counters) (w : World) :
  exists c',
    text_step status group c w
    = (Done c',
       printed w (flat_map report
                    (recognised (fun _ : unit => status) (fun _ => group)
                       [tt])))
    /\ oks c'
       = oks c + tally sensu.CheckStateOK
                   (recognised (fun _ : unit => status) (fun _ => group) [tt])
    /\ warnings c'
       = warnings c
         + tally sensu.CheckStateWarning
             (recognised (fun _ : unit => status) (fun _ => group) [tt])
    /\ criticals c'
       = criticals c
         + tally sensu.CheckStateCritical
             (recognised (fun _ : unit => status) (fun _ => group) [tt])
    /\ unknowns c'
       = unknowns c
         + tally sensu.CheckStateUnknown
             (recognised (fun _ : unit => status) (fun _ => group) [tt])
    /\ found c' = true.
Proof.
  unfold text_step, recognised, readStatus. cbn [flat_map].
  rewrite !EqualFold_simpleFold by reflexivity.
  destruct w as [sent_so_far out].
  destruct (simpleFold status =? "ok")%string; [step_done |].
  destruct (simpleFold status =? "warning")%string; [step_done |].
  destruct (simpleFold status =? "critical")%string; [step_done |].
  destruct (simpleFold status =? "unknown")%string; step_done.
Qed.

Lemma recognised_cons {A : Type} (statusOf groupOf : A -> string) (s : A)
  (rest : list A) :
  recognised statusOf groupOf (s :: rest)
  = recognised (fun _ : unit => statusOf s) (fun _ => groupOf s) [tt]
    ++ recognised statusOf groupOf rest.
Proof.
  unfold recognised. cbn [flat_map]. now rewrite app_nil_r.
Qed.

Lemma text_loop_spec {A : Type} (statusOf groupOf : A -> string)
  (sResp : list A) :
  forall (c : Counters) (w : World),
  exists c',
    text_loop statusOf groupOf sResp c w
    = (Done c',
       printed w (flat_map report (recognised statusOf groupOf sResp)))
    /\ warnings c'
       = warnings c
         + tally sensu.CheckStateWarning (recognised statusOf groupOf sResp)
    /\ criticals c'
       = criticals c
         + tally sensu.CheckStateCritical (recognised statusOf groupOf sResp)
    /\ unknowns c'
       = unknowns c
         + tally sensu.CheckStateUnknown (recognised statusOf groupOf sResp)
    /\ found c' = match sResp with [] => found c | _ :: _ => true end.
Proof.
  induction sResp as [| s rest IH]; intros c w.
  - exists c. cbn. unfold ret, tally. cbn. rewrite printed_nil.
    repeat split; lia.
  - destruct (text_step_spec (statusOf s) (groupOf s) c w)
      as (c1 & Hstep & _ & Hw & Hc & Hu & Hf).
    destruct (IH c1 (printed w (flat_map report
                (recognised (fun _ : unit => statusOf s)
                   (fun _ => groupOf s) [tt]))))
      as (c2 & Hloop & Hw2 & Hc2 & Hu2 & Hf2).
    exists c2. cbn [text_loop]. unfold bind. rewrite Hstep, Hloop.
    rewrite printed_app, (recognised_cons statusOf groupOf s rest).
    rewrite flat_map_app, !tally_app.
    repeat split; try lia.
    destruct rest; congruence.
Qed.

(** The loop of the earlier versions followed by the verdict. *)
Lemma text_run_spec {A : Type} (statusOf groupOf : A -> string)
  (sResp : list A) (w : World) :
  (c <- text_loop statusOf groupOf sResp noCounters ;; verdict c) w
  = (Done (aggregate (map Status (recognised statusOf groupOf sResp)), None),
     printed w (flat_map report (recognised statusOf groupOf sResp)
                ++ text_closing statusOf groupOf sResp)).
Proof.
  unfold bind.
  destruct (text_loop_spec statusOf groupOf sResp noCounters w)
    as (c & Hloop & Hw & Hc & Hu & Hf).
  rewrite Hloop. cbn in Hw, Hc, Hu, Hf.
  unfold verdict. rewrite Hw, Hc, Hu, !tally_pos.
  unfold text_closing, aggregate. rewrite existsb_orb.
  destruct (existsb _ _ || existsb _ _).
  { unfold ret. cbn. now rewrite app_nil_r. }
  destruct (existsb _ _).
  { unfold ret. cbn. now rewrite app_nil_r. }
  cbn [Z.eqb sensu.CheckStateOK]. unfold bind, ret.
  destruct sResp as [| s rest]; rewrite Hf, Printf_printed, printed_app;
    reflexivity.
Qed.

(** X12: in [src/unnamed/part_000] the one request of a check is the listing,
    which carries the health of each service: the result is the aggregate
    of the entries whose health text is one of the four words, the lines
    are theirs, and an entry with any other text is passed over; the closing
    message tells a listing without entries from one with. *)
Theorem inline_executeCheck_listing (w : World) (resp : Response)
  (sResp : list ListedService) :
  url_Parse (SupervisorURL plugin) = None ->
  url_Parse (URL rawServicesRequest) = None ->
  transport (List.length (requests w)) rawServicesRequest = Ok resp ->
  json_Decode_ListedServices (Body resp) = Ok sResp ->
  inline_executeCheck w
  = (Done (aggregate
             (map Status (recognised HealthCheck ListedServiceGroup sResp)),
           None),
     printed (sent w rawServicesRequest)
       (flat_map report (recognised HealthCheck ListedServiceGroup sResp)
        ++ text_closing HealthCheck ListedServiceGroup sResp)).
Proof.
  intros Hbase Hurl Hresp Hdec.
  unfold inline_executeCheck, http_NewRequest. rewrite Hbase.
  change (URL rawServicesRequest)
    with (SupervisorURL plugin +++ "/services") in Hurl.
  rewrite Hurl. unfold bind at 1. unfold client_Do.
  fold rawServicesRequest. rewrite Hresp, Hdec.
  apply text_run_spec.
Qed.

Lemma recognised_none {A : Type} (statusOf groupOf : A -> string)
  (sResp : list A) :
  Forall (fun s => readStatus (statusOf s) = None
                   \/ readStatus (statusOf s) = Some sensu.CheckStateOK)
    sResp ->
  flat_map report (recognised statusOf groupOf sResp) = []
  /\ aggregate (map Status (recognised statusOf groupOf sResp))
     = sensu.CheckStateOK.
Proof.
  induction 1 as [| s rest Hs _ [IHr IHa]]; [split; reflexivity |].
  rewrite (recognised_cons statusOf groupOf s rest), flat_map_app, map_app.
  unfold recognised at 1 3.
  cbn [flat_map].
  destruct Hs as [Hs | Hs]; rewrite Hs; cbn [app flat_map map].
  - now split.
  - split; [exact IHr |]. unfold aggregate in *. cbn [existsb].
    cbn [sensu.CheckStateOK sensu.CheckStateCritical sensu.CheckStateUnknown
           sensu.CheckStateWarning Status Z.eqb orb].
    exact IHa.
Qed.

(** X13: in [src/unnamed/part_000] a health text that is none of the four words
    raises nothing: a listing whose entries are OK or carry such a text
    (an empty one, say) gives the OK result, with the message that all
    health checks return OK as soon as there is an entry. *)
Theorem inline_executeCheck_unrecognised (w : World) (resp : Response)
  (sResp : list ListedService) :
  url_Parse (SupervisorURL plugin) = None ->
  url_Parse (URL rawServicesRequest) = None ->
  transport (List.length (requests w)) rawServicesRequest = Ok resp ->
  json_Decode_ListedServices (Body resp) = Ok sResp ->
  sResp <> [] ->
  Forall (fun s => readStatus (HealthCheck s) = None
                   \/ readStatus (HealthCheck s) = Some sensu.CheckStateOK)
    sResp ->
  inline_executeCheck w
  = (Done (sensu.CheckStateOK, None),
     printed (sent w rawServicesRequest)
       ["All health checks returning OK for loaded services"]).
Proof.
  intros Hbase Hurl Hresp Hdec Hne Hall.
  unfold inline_executeCheck, http_NewRequest. rewrite Hbase.
  change (URL rawServicesRequest)
    with (SupervisorURL plugin +++ "/services") in Hurl.
  rewrite Hurl. unfold bind at 1. unfold client_Do.
  fold rawServicesRequest. rewrite Hresp, Hdec.
  rewrite text_run_spec.
  destruct (recognised_none HealthCheck ListedServiceGroup sResp Hall)
    as [Hrep Hagg].
  unfold text_closing. rewrite Hrep, Hagg.
  cbn [Z.eqb sensu.CheckStateOK app].
  destruct sResp; [now contradiction Hne | reflexivity].
Qed.

(** X14: [executeCheck] of [src/unnamed/part_000] always returns: it indexes
    nothing.  It sends the listing request or none, its result is OK,
    WARNING or CRITICAL, and with an error nothing is printed; the error is
    a WARNING exactly when the supervisor URL does not parse, in which case
    no request is sent. *)
Theorem inline_executeCheck_returns (w : World) :
  exists code err w',
    inline_executeCheck w = (Done (code, err), w')
    /\ (code = sensu.CheckStateOK \/ code = sensu.CheckStateWarning
        \/ code = sensu.CheckStateCritical)
    /\ (requests w' = requests w
        \/ requests w' = requests w ++ [rawServicesRequest])
    /\ (err <> None ->
        stdout w' = stdout w
        /\ (code = sensu.CheckStateWarning
            <-> url_Parse (SupervisorURL plugin) <> None)
        /\ (code = sensu.CheckStateWarning -> w' = w)).
Proof.
  unfold inline_executeCheck, http_NewRequest.
  destruct (url_Parse (SupervisorURL plugin)) as [e |].
  { do 3 eexists. split; [reflexivity |].
    split; [now right; left | split; [now left |]].
    intros _. split; [reflexivity | split; [| reflexivity]].
    split; [discriminate | reflexivity]. }
  destruct (url_Parse (SupervisorURL plugin +++ "/services")) as [e |].
  { do 3 eexists. split; [reflexivity |].
    split; [now right; right | split; [now left |]].
    intros _. split; [reflexivity | split; [| discriminate]].
    split; [discriminate | intros H; now contradiction H]. }
  unfold bind at 1. unfold client_Do. fold rawServicesRequest.
  destruct (transport _ _) as [resp | e].
  2:{ do 3 eexists. split; [reflexivity |].
      split; [now right; right | split; [now right |]].
      intros _. split; [reflexivity | split; [| discriminate]].
      split; [discriminate | intros H; now contradiction H]. }
  destruct (json_Decode_ListedServices _) as [sResp | e].
  2:{ do 3 eexists. split; [reflexivity |].
      split; [now right; right | split; [now right |]].
      intros _. split; [reflexivity | split; [| discriminate]].
      split; [discriminate | intros H; now contradiction H]. }
  rewrite text_run_spec. do 3 eexists. split; [reflexivity |].
  split; [apply aggregate_range | split; [now right |]].
  intros H. now contradiction H.
Qed.

Lemma group_getServiceResponse_spec (req : Request) (w : World) :
  group_getServiceResponse req w =
    match transport (List.length (requests w)) req with
    | Err err => (Done (Err err), sent w req)
    | Ok resp =>
        match json_Decode_ListedServices (Body resp) with
        | Err err =>
            (Done (Err ("failed to decode service response: " +++ err)),
             sent w req)
        | Ok result => (Done (Ok result), sent w req)
        end
    end.
Proof.
  unfold group_getServiceResponse, bind, client_Do.
  destruct (transport _ _) as [resp |]; [| reflexivity].
  destruct (json_Decode_ListedServices _); reflexivity.
Qed.

(** One service of the loop of [group_checkServices], for a service with a
    [.]. *)
Lemma group_checkServices_loop_cons (service : string) (rest : list string)
  (result : list ListedService) (w : World) :
  has_dot service = true ->
  group_checkServices_loop (service :: rest) result w =
    match url_Parse (URL (groupRequest service)) with
    | Some err => (Done (Err err), w)
    | None =>
        match group_getServiceResponse (groupRequest service) w with
        | (Done (Ok sResp), w1) =>
            group_checkServices_loop rest (result ++ sResp) w1
        | (Done (Err err), w1) => (Done (Err err), w1)
        | (Panicked msg, w1) => (Panicked msg, w1)
        end
    end.
Proof.
  intros Hdot. cbn [group_checkServices_loop].
  rewrite SplitN_dot, Hdot.
  unfold bind at 1 2. unfold at_index, ret. cbn [nth_error].
  unfold http_NewRequest.
  change (URL (groupRequest service))
    with (SupervisorURL plugin +++ "/services/" +++ before_dot service
          +++ "/" +++ after_dot service).
  destruct (url_Parse _); [reflexivity |].
  unfold bind. fold (groupRequest service).
  destruct (group_getServiceResponse (groupRequest service) w)
    as [[[sResp | err] | msg] w1]; reflexivity.
Qed.

Lemma group_checkServices_loop_acc (services : list string) :
  forall (acc : list ListedService) (w : World),
    group_checkServices_loop services acc w =
      match group_checkServices_loop services [] w with
      | (Done (Ok l), w') => (Done (Ok (acc ++ l)), w')
      | (Done (Err err), w') => (Done (Err err), w')
      | (Panicked msg, w') => (Panicked msg, w')
      end.
Proof.
  induction services as [| service rest IH]; intros acc w.
  - cbn. unfold ret. now rewrite app_nil_r.
  - destruct (has_dot service) eqn:Hdot.
    + rewrite !(group_checkServices_loop_cons _ _ _ _ Hdot).
      destruct (url_Parse _); [reflexivity |].
      destruct (group_getServiceResponse _ w) as [[[sResp | err] | msg] w1];
        try reflexivity.
      rewrite (IH (acc ++ sResp)), (IH ([] ++ sResp)).
      destruct (group_checkServices_loop rest [] w1)
        as [[[l | err] | msg] w2]; try reflexivity.
      now rewrite <- app_assoc.
    + cbn [group_checkServices_loop]. rewrite SplitN_dot, Hdot.
      reflexivity.
Qed.

Lemma group_checkServices_app (pre post : list string) :
  forall (w w1 : World) (lp : list ListedService),
    group_checkServices pre w = (Done (Ok lp), w1) ->
    group_checkServices (pre ++ post) w =
      match group_checkServices post w1 with
      | (Done (Ok lq), w2) => (Done (Ok (lp ++ lq)), w2)
      | (Done (Err err), w2) => (Done (Err err), w2)
      | (Panicked msg, w2) => (Panicked msg, w2)
      end.
Proof.
  unfold group_checkServices.
  induction pre as [| service pre IH]; intros w w1 lp Hpre.
  - cbn in Hpre. unfold ret in Hpre. injection Hpre as <- <-.
    cbn [app].
    now destruct (group_checkServices_loop post [] w)
      as [[[lq | err] | msg] w2].
  - destruct (has_dot service) eqn:Hdot.
    2:{ cbn [group_checkServices_loop] in Hpre.
        rewrite SplitN_dot, Hdot in Hpre. discriminate. }
    cbn [app].
    rewrite (group_checkServices_loop_cons service pre [] w Hdot) in Hpre.
    rewrite (group_checkServices_loop_cons service (pre ++ post) [] w Hdot).
    destruct (url_Parse _); [discriminate |].
    destruct (group_getServiceResponse _ w) as [[[sResp | err] | msg] w0];
      try discriminate.
    rewrite group_checkServices_loop_acc in Hpre.
    rewrite group_checkServices_loop_acc.
    destruct (group_checkServices_loop pre [] w0)
      as [[[l | err] | msg] w0'] eqn:E; try discriminate.
    injection Hpre as <- <-.
    rewrite (IH w0 w0' l E).
    destruct (group_checkServices_loop post [] w0')
      as [[[lq | err] | msg] w2]; try reflexivity.
    now rewrite app_assoc.
Qed.

Lemma group_checkServices_loop_stdout (services : list string) :
  forall (acc : list ListedService) (w w' : World)
         (r : Outcome (Result (list ListedService))),
    group_checkServices_loop services acc w = (r, w') ->
    stdout w' = stdout w.
Proof.
  induction services as [| service rest IH]; intros acc w w' r.
  - cbn. unfold ret. now intros [= _ <-].
  - destruct (has_dot service) eqn:Hdot.
    + rewrite (group_checkServices_loop_cons _ _ _ _ Hdot).
      destruct (url_Parse _); [now intros [= _ <-] |].
      rewrite group_getServiceResponse_spec.
      destruct (transport _ _) as [resp |]; [| now intros [= _ <-]].
      destruct (json_Decode_ListedServices _); [| now intros [= _ <-]].
      intros H. now rewrite (IH _ _ _ _ H).
    + cbn [group_checkServices_loop]. rewrite SplitN_dot, Hdot.
      now intros [= _ <-].
Qed.

(** X15: in [src/main.go] from line 470, the first named group whose request
    fails, or whose answer does not decode, ends the check: no request is
    sent for the groups after it, what the groups before it answered is
    dropped, nothing is printed, and the result is CRITICAL with the
    error. *)
Theorem group_checkServices_aborts (pre post : list string) (service : string)
  (w w1 : World) (lp : list ListedService) :
  Services plugin = pre ++ service :: post ->
  group_checkServices pre w = (Done (Ok lp), w1) ->
  has_dot service = true ->
  url_Parse (URL (groupRequest service)) = None ->
  (exists err,
      transport (List.length (requests w1)) (groupRequest service) = Err err)
  \/ (exists resp err,
         transport (List.length (requests w1)) (groupRequest service) = Ok resp
         /\ json_Decode_ListedServices (Body resp) = Err err) ->
  exists err,
    group_executeCheck w
    = (Done (sensu.CheckStateCritical,
             Some ("could not retrive service health: " +++ err)),
       sent w1 (groupRequest service))
    /\ stdout w1 = stdout w.
Proof.
  intros Hsvcs Hpre Hdot Hurl Hfail.
  assert (Hone : exists err,
             group_checkServices (service :: post) w1
             = (Done (Err err), sent w1 (groupRequest service))).
  { unfold group_checkServices.
    rewrite (group_checkServices_loop_cons _ _ _ _ Hdot), Hurl.
    rewrite group_getServiceResponse_spec.
    destruct Hfail as [[err Herr] | (resp & err & Hresp & Herr)].
    - rewrite Herr. now exists err.
    - rewrite Hresp, Herr.
      now exists ("failed to decode service response: " +++ err). }
  destruct Hone as [err Hone]. exists err. split.
  - unfold group_executeCheck. rewrite Hsvcs.
    assert (Hlen : (Z.of_nat (List.length (pre ++ service :: post)) >? 0)
                   = true).
    { apply Z.gtb_lt. rewrite length_app. cbn [List.length]. lia. }
    rewrite Hlen. unfold bind.
    now rewrite (group_checkServices_app pre _ w w1 lp Hpre), Hone.
  - exact (group_checkServices_loop_stdout _ _ _ _ _ Hpre).
Qed.


Lemma draft_getResponse_spec (req : Request) (w : World) :
  draft_getResponse req w =
    match transport (List.length (requests w)) req with
    | Err err => (Done (Err err), sent w req)
    | Ok resp =>
        (Done (Ok {| StatusCode := StatusCode resp;
                     Body := closed (Body resp) |}),
         sent w req)
    end.
Proof.
  unfold draft_getResponse, bind, client_Do.
  now destruct (transport _ _).
Qed.

(** X17: in [src/main.go] from line 246 every body is decoded after
    [getResponse] has closed it.  Where nothing decodes from a closed body,
    a check of services that hold a [.] returns CRITICAL with an error
    whatever the supervisor answers: it prints nothing and stops after its
    first request, if it sends any. *)
Theorem draft_executeCheck_closed_bodies (w : World) :
  (forall body, exists err,
      json_Decode_ServiceResponse (closed body) = Err err) ->
  (forall body, exists err,
      json_Decode_GroupHealth (closed body) = Err err) ->
  forallb has_dot (Services plugin) = true ->
  exists err w',
    draft_executeCheck w = (Done (sensu.CheckStateCritical, Some err), w')
    /\ stdout w' = stdout w
    /\ (requests w' = requests w
        \/ exists req, requests w' = requests w ++ [req]).
Proof.
  intros Hlist Hhealth Hdots. unfold draft_executeCheck.
  destruct (Services plugin) as [| service rest].
  - cbn [List.length Z.of_nat Z.eqb].
    unfold bind at 1. unfold draft_getAllServices, http_NewRequest.
    destruct (url_Parse _).
    { do 2 eexists. split; [reflexivity | split; [reflexivity | now left]]. }
    unfold bind at 1. rewrite draft_getResponse_spec.
    destruct (transport _ _) as [resp |].
    + cbn [Body]. destruct (Hlist (Body resp)) as [err Herr]. rewrite Herr.
      do 2 eexists. split; [reflexivity | split; [reflexivity |]].
      right. eexists. reflexivity.
    + do 2 eexists. split; [reflexivity | split; [reflexivity |]].
      right. eexists. reflexivity.
  - cbn [forallb] in Hdots. apply andb_true_iff in Hdots.
    destruct Hdots as [Hdot _].
    assert (Hlen : (Z.of_nat (List.length (service :: rest)) =? 0) = false).
    { apply Z.eqb_neq. cbn [List.length]. lia. }
    rewrite Hlen.
    unfold draft_executeCheck_services, draft_checkServices.
    cbn [draft_checkServices_loop]. rewrite SplitN_dot, Hdot.
    unfold bind at 1 2 3. unfold at_index, ret at 1 2, http_NewRequest.
    cbn [nth_error].
    destruct (url_Parse _).
    { do 2 eexists. split; [reflexivity | split; [reflexivity | now left]]. }
    unfold bind at 1. rewrite draft_getResponse_spec.
    destruct (transport _ _) as [resp |].
    + cbn [Body]. destruct (Hhealth (Body resp)) as [err Herr]. rewrite Herr.
      do 2 eexists. split; [reflexivity | split; [reflexivity |]].
      right. eexists. reflexivity.
    + do 2 eexists. split; [reflexivity | split; [reflexivity |]].
      right. eexists. reflexivity.
Qed.

End Plugin.

(** ** The base URL *)

Lemma length_append (u v : string) :
  String.length (u +++ v) = (String.length u + String.length v)%nat.
Proof. induction u as [| c u IH]; cbn; [reflexivity | now rewrite IH]. Qed.

Lemma slice_from_append (u v : string) :
  strings.slice_from (String.length u) (u +++ v) = v.
Proof. induction u as [| c u IH]; [now destruct v | exact IH]. Qed.

Lemma slice_to_append (u v : string) :
  strings.slice_to (String.length u) (u +++ v) = u.
Proof.
  induction u as [| c u IH]; [now destruct v |].
  cbn. now rewrite IH.
Qed.

(** One trailing [/] is what [TrimSuffix] takes off. *)
Lemma TrimSuffix_slash (u : string) : strings.TrimSuffix (u +++ "/") "/" = u.
Proof.
  unfold strings.TrimSuffix, strings.HasSuffix, strings.len.
  rewrite length_append. cbn [String.length].
  replace (Z.to_nat (Z.of_nat (String.length u + 1) - Z.of_nat 1))
    with (String.length u) by lia.
  rewrite slice_from_append, slice_to_append.
  assert (H : (Z.of_nat 1 <=? Z.of_nat (String.length u + 1)) = true)
    by (apply Z.leb_le; lia).
  now rewrite H.
Qed.

Lemma TrimSuffix_none (u : string) :
  strings.HasSuffix u "/" = false -> strings.TrimSuffix u "/" = u.
Proof. unfold strings.TrimSuffix. now intros ->. Qed.

(** C8, as the code has it: one trailing [/] is stripped from the base URL.
    For a base URL [u] that does not itself end in [/], the plugin configured
    with [u/] sends the requests of the plugin configured with [u], to
    [u/services] and [u/services/<name>/<group>/health]. *)
Theorem getSupervisorUrl_one_slash
  (url_Parse : string -> option error)
  (json_Decode_ServiceResponse : string -> Result ServiceResponse)
  (json_Decode_HealthResponse : string -> Result HealthResponse)
  (transport : nat -> Request -> Result Response)
  (u : string) (services : list string) (timeout : Z) :
  strings.HasSuffix u "/" = false ->
  let slashed :=
    {| SupervisorURL := u +++ "/"; Services := services; Timeout := timeout |} in
  let plain :=
    {| SupervisorURL := u; Services := services; Timeout := timeout |} in
  getSupervisorUrl slashed = u
  /\ getSupervisorUrl plain = u
  /\ URL (servicesRequest slashed) = u +++ "/services"
  /\ (forall service,
        URL (healthRequest slashed service)
        = u +++ "/services/" +++ before_dot service +++ "/"
          +++ after_dot service +++ "/health")
  /\ (forall w,
        getAllServices url_Parse json_Decode_ServiceResponse transport slashed w
        = getAllServices url_Parse json_Decode_ServiceResponse transport plain w)
  /\ (forall service w,
        checkService url_Parse json_Decode_HealthResponse transport slashed
          service w
        = checkService url_Parse json_Decode_HealthResponse transport plain
            service w)
  /\ (forall w,
        executeCheck url_Parse json_Decode_ServiceResponse
          json_Decode_HealthResponse transport slashed w
        = executeCheck url_Parse json_Decode_ServiceResponse
            json_Decode_HealthResponse transport plain w).
Proof.
  intros Hu slashed plain.
  assert (Hs : getSupervisorUrl slashed = u) by apply TrimSuffix_slash.
  assert (Hp : getSupervisorUrl plain = u) by exact (TrimSuffix_none u Hu).
  assert (Hget : forall w,
    getAllServices url_Parse json_Decode_ServiceResponse transport slashed w
    = getAllServices url_Parse json_Decode_ServiceResponse transport plain w).
  { intros w. unfold getAllServices. now rewrite Hs, Hp. }
  assert (Hsvc : forall service w,
    checkService url_Parse json_Decode_HealthResponse transport slashed
      service w
    = checkService url_Parse json_Decode_HealthResponse transport plain
        service w).
  { intros service w. unfold checkService. now rewrite Hs, Hp. }
  assert (Hloop : forall l acc w,
    checkServices_loop url_Parse json_Decode_HealthResponse transport slashed
      l acc w
    = checkServices_loop url_Parse json_Decode_HealthResponse transport plain
        l acc w).
  { induction l as [| service rest IH]; intros acc w; [reflexivity |].
    cbn [checkServices_loop]. unfold bind. rewrite Hsvc.
    destruct (checkService _ _ _ plain service w) as [[h | msg] w1];
      [apply IH | reflexivity]. }
  assert (Hrest : forall l w,
    executeCheck_services url_Parse json_Decode_HealthResponse transport
      slashed l w
    = executeCheck_services url_Parse json_Decode_HealthResponse transport
        plain l w).
  { intros l w. unfold executeCheck_services, checkServices, bind.
    now rewrite Hloop. }
  repeat split; try assumption.
  - unfold servicesRequest. cbn [Header_Set URL]. now rewrite Hs.
  - intros service. unfold healthRequest. cbn [Header_Set URL]. now rewrite Hs.
  - intros w. unfold executeCheck. cbn [Services slashed plain].
    destruct (Z.of_nat (List.length services) =? 0); [| apply Hrest].
    unfold bind. rewrite Hget.
    destruct (getAllServices _ _ _ plain w) as [[[l | err] | msg] w1];
      [apply Hrest | reflexivity | reflexivity].
Qed.

(** ** The plugin at work *)

(** A base URL with two trailing slashes keeps one of them: the requests go
    to paths with a doubled slash, which are not the paths of the same URL
    with one slash less. *)
Lemma getSupervisorUrl_two_slashes :
  SupervisorURL Supervisor.two_slashes = "http://127.0.0.1:9631//"
  /\ SupervisorURL Supervisor.one_slash = "http://127.0.0.1:9631/"
  /\ map URL (requests (snd (getAllServices Supervisor.url_Parse
                               (Supervisor.decodeServices Supervisor.listings)
                               (Supervisor.serve []) Supervisor.two_slashes
                               emptyWorld)))
     = ["http://127.0.0.1:9631//services"]
  /\ map URL (requests (snd (getAllServices Supervisor.url_Parse
                               (Supervisor.decodeServices Supervisor.listings)
                               (Supervisor.serve []) Supervisor.one_slash
                               emptyWorld)))
     = ["http://127.0.0.1:9631/services"]
  /\ map URL (requests (snd (checkService Supervisor.url_Parse
                               Supervisor.decodeHealth (Supervisor.serve [])
                               Supervisor.two_slashes "redis.default"
                               emptyWorld)))
     = ["http://127.0.0.1:9631//services/redis/default/health"]
  /\ map URL (requests (snd (checkService Supervisor.url_Parse
                               Supervisor.decodeHealth (Supervisor.serve [])
                               Supervisor.one_slash "redis.default"
                               emptyWorld)))
     = ["http://127.0.0.1:9631/services/redis/default/health"].
Proof. repeat split; reflexivity. Qed.

Lemma getSupervisorUrl_one_slash_witness :
  getSupervisorUrl Supervisor.one_slash = "http://127.0.0.1:9631".
Proof.
  exact (proj1 (getSupervisorUrl_one_slash
                  Supervisor.url_Parse
                  (Supervisor.decodeServices Supervisor.listings)
                  Supervisor.decodeHealth (Supervisor.serve [])
                  "http://127.0.0.1:9631" [] 15 eq_refl)).
Defined.

(** Identifiers with an empty name, an empty group or a second [.] pass
    [checkArgs], though none of them is a [name.group] in the strict sense;
    and a supervisor URL that does not parse gives the WARNING result with a
    well-formed identifier. *)
Lemma checkArgs_accepts_loose_identifiers :
  checkArgs Supervisor.url_Parse Supervisor.Quote
    (Supervisor.explicit [".default"]) = (sensu.CheckStateOK, None)
  /\ strict_name_group ".default" = false
  /\ checkArgs Supervisor.url_Parse Supervisor.Quote
       (Supervisor.explicit ["redis."]) = (sensu.CheckStateOK, None)
  /\ strict_name_group "redis." = false
  /\ checkArgs Supervisor.url_Parse Supervisor.Quote
       (Supervisor.explicit ["a.b.c"]) = (sensu.CheckStateOK, None)
  /\ strict_name_group "a.b.c" = false
  /\ fst (checkArgs Supervisor.url_Parse Supervisor.Quote
            {| SupervisorURL := String "127" Supervisor.base;
               Services := ["redis.default"]; Timeout := 15 |})
     = sensu.CheckStateWarning
  /\ strict_name_group "redis.default" = true.
Proof. repeat split; reflexivity. Qed.

Lemma executeCheck_aggregate_witness :
  exists w2,
    executeCheck Supervisor.url_Parse
      (Supervisor.decodeServices Supervisor.listings) Supervisor.decodeHealth
      (Supervisor.serve Supervisor.warning_and_ok)
      (Supervisor.explicit ["redis.default"; "web.default"]) emptyWorld
    = (Done (sensu.CheckStateWarning, None), w2).
Proof.
  destruct (executeCheck_aggregate Supervisor.url_Parse
              (Supervisor.decodeServices Supervisor.listings)
              Supervisor.decodeHealth
              (Supervisor.serve Supervisor.warning_and_ok)
              (Supervisor.explicit ["redis.default"; "web.default"])
              emptyWorld _ _ _ _ eq_refl eq_refl)
    as (code & w2 & Hrun & _ & Hwarn & _).
  exists w2. rewrite Hrun. rewrite Hwarn; [reflexivity | |].
  - intros H. inversion H as [? ? [Hc | Hc] | ? ? Hr]; subst;
      [discriminate Hc | discriminate Hc |].
    inversion Hr as [? ? [Hc | Hc] | ? ? Hr']; subst;
      [discriminate Hc | discriminate Hc | inversion Hr'].
  - left. reflexivity.
Defined.

Lemma checkService_not_200_witness :
  exists w3,
    executeCheck Supervisor.url_Parse
      (Supervisor.decodeServices Supervisor.listings) Supervisor.decodeHealth
      (Supervisor.serve Supervisor.redis_404) Supervisor.enumerating emptyWorld
    = (Done (sensu.CheckStateCritical, None),
       printed w3 ["redis.default UNKNOWN" +++ newline]).
Proof.
  destruct (checkService_not_200 Supervisor.url_Parse
              (Supervisor.decodeServices Supervisor.listings)
              Supervisor.decodeHealth (Supervisor.serve Supervisor.redis_404)
              Supervisor.enumerating [] [] "redis.default"
              emptyWorld _ _ [] (Build_Response 404 "")
              eq_refl eq_refl eq_refl eq_refl eq_refl
              ltac:(discriminate))
    as (hq & w3 & _ & Hpost & _ & _ & Hrun).
  exists w3. rewrite Hrun.
  cbn in Hpost. unfold ret in Hpost. injection Hpost as <- _.
  reflexivity.
Defined.

Lemma executeCheck_enumeration_fails_witness :
  exists err,
    executeCheck Supervisor.url_Parse
      (Supervisor.decodeServices Supervisor.listings) Supervisor.decodeHealth
      (Supervisor.serve Supervisor.listing_garbled) Supervisor.enumerating
      emptyWorld
    = (Done (sensu.CheckStateCritical,
             Some ("could not retrieve services: " +++ err)),
       sent emptyWorld (servicesRequest Supervisor.enumerating)).
Proof.
  apply (executeCheck_enumeration_fails Supervisor.url_Parse
           (Supervisor.decodeServices Supervisor.listings)
           Supervisor.decodeHealth
           (Supervisor.serve Supervisor.listing_garbled)
           Supervisor.enumerating emptyWorld eq_refl eq_refl).
  right. exists (Build_Response 200 "<html>").
  exists "invalid character looking for beginning of value".
  split; reflexivity.
Defined.

Lemma checkService_failure_attributed_witness :
  exists err w3,
    executeCheck Supervisor.url_Parse
      (Supervisor.decodeServices Supervisor.listings) Supervisor.decodeHealth
      (Supervisor.serve Supervisor.redis_garbled)
      (Supervisor.explicit ["redis.default"; "web.default"]) emptyWorld
    = (Done (sensu.CheckStateCritical, None),
       printed w3
         ["redis.default UNKNOWN" +++ newline;
          "Error occured while checking service:" +++ newline +++ err
          +++ newline])
    /\ map URL (requests w3) = [Supervisor.redisURL; Supervisor.webURL].
Proof.
  destruct (checkService_failure_attributed Supervisor.url_Parse
              (Supervisor.decodeServices Supervisor.listings)
              Supervisor.decodeHealth
              (Supervisor.serve Supervisor.redis_garbled)
              (Supervisor.explicit ["redis.default"; "web.default"])
              [] ["web.default"] "redis.default" emptyWorld _ _ []
              eq_refl eq_refl eq_refl eq_refl
              (or_intror
                 (ex_intro _ (Build_Response 200 "<html>")
                    (ex_intro _
                       "invalid character looking for beginning of value"
                       (conj eq_refl (conj eq_refl eq_refl))))))
    as (err & hq & w3 & _ & Hpost & _ & _ & Hrun).
  exists err, w3. rewrite Hrun.
  vm_compute in Hpost. injection Hpost as <- <-.
  split; reflexivity.
Defined.

Lemma executeCheck_ok_message_witness :
  executeCheck Supervisor.url_Parse
    (Supervisor.decodeServices Supervisor.listings) Supervisor.decodeHealth
    (Supervisor.serve Supervisor.nothing_loaded) Supervisor.enumerating
    emptyWorld
  = (Done (sensu.CheckStateOK, None),
     printed (sent emptyWorld (servicesRequest Supervisor.enumerating))
       ["No services loaded"]).
Proof.
  exact (proj1 (executeCheck_ok_message Supervisor.url_Parse
                  (Supervisor.decodeServices Supervisor.listings)
                  Supervisor.decodeHealth
                  (Supervisor.serve Supervisor.nothing_loaded)
                  Supervisor.enumerating emptyWorld _ _ [] []
                  eq_refl eq_refl (Forall_nil _))).
Defined.

Lemma checkService_status_witness :
  exists h,
    checkService Supervisor.url_Parse Supervisor.decodeHealth
      (Supervisor.serve Supervisor.redis_critical)
      (Supervisor.explicit ["redis.default"]) "redis.default" emptyWorld
    = (Done h,
       sent emptyWorld
         (healthRequest (Supervisor.explicit ["redis.default"])
            "redis.default"))
    /\ Status h = sensu.CheckStateCritical.
Proof.
  destruct (checkService_status Supervisor.url_Parse Supervisor.decodeHealth
              (Supervisor.serve Supervisor.redis_critical)
              (Supervisor.explicit ["redis.default"]) "redis.default"
              emptyWorld
              (Build_Response 200 (Supervisor.healthBody "Critical"))
              (Build_HealthResponse "Critical")
              eq_refl eq_refl eq_refl eq_refl eq_refl)
    as (h & Hrun & _ & _ & _ & _ & _ & Hcrit & _).
  exists h. split; [exact Hrun | exact (Hcrit eq_refl)].
Defined.

Lemma executeCheck_lines_witness :
  exists r w2,
    executeCheck Supervisor.url_Parse
      (Supervisor.decodeServices Supervisor.listings) Supervisor.decodeHealth
      (Supervisor.serve Supervisor.warning_and_ok)
      (Supervisor.explicit ["redis.default"; "web.default"]) emptyWorld
    = (Done r, w2)
    /\ stdout w2 = ["redis.default WARNING" +++ newline].
Proof.
  destruct (executeCheck_lines Supervisor.url_Parse
              (Supervisor.decodeServices Supervisor.listings)
              Supervisor.decodeHealth
              (Supervisor.serve Supervisor.warning_and_ok)
              (Supervisor.explicit ["redis.default"; "web.default"])
              emptyWorld _ _ _ _ eq_refl eq_refl)
    as (r & w2 & Hrun & Hout & _).
  exists r, w2. split; [exact Hrun | exact Hout].
Defined.

Lemma checkService_index_safe_witness :
  exists w2,
    executeCheck Supervisor.url_Parse
      (Supervisor.decodeServices Supervisor.listings) Supervisor.decodeHealth
      (Supervisor.serve Supervisor.listing_no_dot) Supervisor.enumerating
      emptyWorld
    = (Panicked "runtime error: index out of range", w2).
Proof.
  exact (proj2 (proj2 (proj2
           (checkService_index_safe Supervisor.url_Parse
              (Supervisor.decodeServices Supervisor.listings)
              Supervisor.decodeHealth
              (Supervisor.serve Supervisor.listing_no_dot)
              Supervisor.enumerating)))
           ["redis"] emptyWorld _ eq_refl eq_refl eq_refl).
Defined.

(** ** Evaluations *)

Example SplitN_two : strings.SplitN "redis.default" "." 2 = ["redis"; "default"].
Proof. reflexivity. Qed.
Example SplitN_rest : strings.SplitN "a.b.c" "." 2 = ["a"; "b.c"].
Proof. reflexivity. Qed.
Example SplitN_none : strings.SplitN "redis" "." 2 = ["redis"].
Proof. reflexivity. Qed.
Example SplitN_empty : strings.SplitN "" "." 2 = [""].
Proof. reflexivity. Qed.
Example SplitN_all : strings.SplitN "a.b.c" "." (-1) = ["a"; "b"; "c"].
Proof. reflexivity. Qed.
Example TrimSuffix_one : strings.TrimSuffix "http://h//" "/" = "http://h/".
Proof. reflexivity. Qed.
Example EqualFold_case : strings.EqualFold "WaRnInG" "warning" = true.
Proof. reflexivity. Qed.
Example EqualFold_no : strings.EqualFold "okay" "ok" = false.
Proof. reflexivity. Qed.

(** U+212A KELVIN SIGN folds to [k]: a status spelt with it reads as OK. *)
Example EqualFold_kelvin :
  strings.EqualFold (String "o" (String "226" (String "132" (String "170" ""))))
    "ok" = true.
Proof. reflexivity. Qed.

(** A single service that is fine: OK, and the closing message only. *)
Example executeCheck_redis_ok :
  let r := executeCheck Supervisor.url_Parse
             (Supervisor.decodeServices Supervisor.listings)
             Supervisor.decodeHealth
             (Supervisor.serve Supervisor.redis_ok)
             (Supervisor.explicit ["redis.default"]) emptyWorld in
  fst r = Done (sensu.CheckStateOK, None)
  /\ stdout (snd r) = ["All health checks returning OK for loaded services"]
  /\ map URL (requests (snd r)) = [Supervisor.redisURL].
Proof. repeat split; reflexivity. Qed.

(** The listing names redis, whose health request is answered 404. *)
Example executeCheck_redis_404 :
  let r := executeCheck Supervisor.url_Parse
             (Supervisor.decodeServices Supervisor.listings)
             Supervisor.decodeHealth
             (Supervisor.serve Supervisor.redis_404)
             Supervisor.enumerating emptyWorld in
  fst r = Done (sensu.CheckStateCritical, None)
  /\ stdout (snd r) = ["redis.default UNKNOWN" +++ newline]
  /\ map URL (requests (snd r)) = [Supervisor.listingURL; Supervisor.redisURL].
Proof. repeat split; reflexivity. Qed.

(** The supervisor cannot be reached: one request, nothing printed. *)
Example executeCheck_refused :
  let r := executeCheck Supervisor.url_Parse
             (Supervisor.decodeServices Supervisor.listings)
             Supervisor.decodeHealth (Supervisor.serve [])
             Supervisor.enumerating emptyWorld in
  fst r = Done (sensu.CheckStateCritical,
                Some "could not retrieve services: connection refused")
  /\ stdout (snd r) = []
  /\ map URL (requests (snd r)) = [Supervisor.listingURL].
Proof. repeat split; reflexivity. Qed.

(** ** The further properties at work *)

Lemma executeCheck_result_codes_witness :
  exists code err w',
    executeCheck Supervisor.url_Parse
      (Supervisor.decodeServices Supervisor.listings) Supervisor.decodeHealth
      (Supervisor.serve []) Supervisor.enumerating emptyWorld
    = (Done (code, err), w')
    /\ err <> None
    /\ code = sensu.CheckStateCritical
    /\ stdout w' = [].
Proof.
  do 3 eexists. split; [reflexivity |].
  split; [discriminate |].
  destruct (executeCheck_result_codes Supervisor.url_Parse
              (Supervisor.decodeServices Supervisor.listings)
              Supervisor.decodeHealth (Supervisor.serve [])
              Supervisor.enumerating emptyWorld _ _ _ eq_refl)
    as [_ Herr].
  destruct Herr as (Hcode & _ & Hout & _); [discriminate |].
  split; [exact Hcode | exact Hout].
Defined.

Lemma checkService_definite_witness :
  exists resp hResp,
    Supervisor.serve Supervisor.redis_critical 0
      (healthRequest (Supervisor.explicit ["redis.default"]) "redis.default")
    = Ok resp
    /\ StatusCode resp = 200
    /\ Supervisor.decodeHealth (Body resp) = Ok hResp
    /\ healthOf (RespStatus hResp) = sensu.CheckStateCritical.
Proof.
  destruct (checkService_definite Supervisor.url_Parse Supervisor.decodeHealth
              (Supervisor.serve Supervisor.redis_critical)
              (Supervisor.explicit ["redis.default"]) "redis.default"
              emptyWorld _ _ eq_refl ltac:(discriminate))
    as (resp & hResp & _ & Hresp & Hcode & Hdec & Hst & _).
  exists resp, hResp. repeat split; try assumption.
  symmetry. exact Hst.
Defined.

Lemma executeCheck_explicit_requests_witness :
  exists code err w',
    executeCheck Supervisor.url_Parse
      (Supervisor.decodeServices Supervisor.listings) Supervisor.decodeHealth
      (Supervisor.serve Supervisor.warning_and_ok)
      (Supervisor.explicit ["redis.default"; "web.default"]) emptyWorld
    = (Done (code, err), w')
    /\ err = None
    /\ map URL (requests w') = [Supervisor.redisURL; Supervisor.webURL].
Proof.
  do 3 eexists. split; [reflexivity |].
  destruct (executeCheck_explicit_requests Supervisor.url_Parse
              (Supervisor.decodeServices Supervisor.listings)
              Supervisor.decodeHealth
              (Supervisor.serve Supervisor.warning_and_ok)
              (Supervisor.explicit ["redis.default"; "web.default"])
              emptyWorld _ _ _ ltac:(discriminate) eq_refl)
    as (Herr & Hreq & _).
  split; [exact Herr |]. rewrite Hreq. reflexivity.
Defined.

Lemma executeCheck_enumerated_witness :
  exists hs code w',
    executeCheck Supervisor.url_Parse
      (Supervisor.decodeServices Supervisor.listings) Supervisor.decodeHealth
      (Supervisor.serve Supervisor.redis_404) Supervisor.enumerating emptyWorld
    = (Done (code, None), w')
    /\ map ServiceGroup hs = ["redis.default"]
    /\ map URL (requests w') = [Supervisor.listingURL; Supervisor.redisURL].
Proof.
  destruct (executeCheck_enumerated Supervisor.url_Parse
              (Supervisor.decodeServices Supervisor.listings)
              Supervisor.decodeHealth (Supervisor.serve Supervisor.redis_404)
              Supervisor.enumerating emptyWorld
              (Build_Response 200 (Supervisor.servicesBody ["redis.default"]))
              [Build_ServiceEntry "redis.default"]
              eq_refl eq_refl eq_refl eq_refl eq_refl)
    as (hs & code & w' & Hrun & Hgroups & _ & _ & Hreq).
  exists hs, code, w'. split; [exact Hrun | split; [exact Hgroups |]].
  rewrite Hreq. reflexivity.
Defined.

Lemma checkArgs_first_malformed_witness :
  checkArgs Supervisor.url_Parse Supervisor.Quote
    (Supervisor.explicit ["redis.default"; "web"; "db"])
  = (sensu.CheckStateWarning,
     Some ("--service " +++ Supervisor.Quote "web"
           +++ " value malformed should be " +++ dquote
           +++ "service_name.service_group" +++ dquote)).
Proof.
  exact (checkArgs_first_malformed Supervisor.url_Parse Supervisor.Quote
           (Supervisor.explicit ["redis.default"; "web"; "db"])
           ["redis.default"] ["db"] "web" eq_refl eq_refl eq_refl).
Defined.

Lemma checkArgs_ok_executeCheck_returns_witness :
  exists hs code w',
    executeCheck Supervisor.url_Parse
      (Supervisor.decodeServices Supervisor.listings) Supervisor.decodeHealth
      (Supervisor.serve Supervisor.redis_ok)
      (Supervisor.explicit ["redis.default"]) emptyWorld
    = (Done (code, None), w')
    /\ map ServiceGroup hs = ["redis.default"].
Proof.
  destruct (checkArgs_ok_executeCheck_returns Supervisor.url_Parse
              Supervisor.Quote
              (Supervisor.decodeServices Supervisor.listings)
              Supervisor.decodeHealth (Supervisor.serve Supervisor.redis_ok)
              (Supervisor.explicit ["redis.default"]) emptyWorld
              eq_refl ltac:(discriminate))
    as (hs & code & w' & Hrun & Hgroups & _).
  exists hs, code, w'. split; assumption.
Defined.

Lemma executeCheck_result_explained_witness :
  exists group lines,
    In (group +++ " WARNING" +++ newline) lines
    /\ stdout
         (snd (executeCheck Supervisor.url_Parse
                 (Supervisor.decodeServices Supervisor.listings)
                 Supervisor.decodeHealth
                 (Supervisor.serve Supervisor.warning_and_ok)
                 (Supervisor.explicit ["redis.default"; "web.default"])
                 emptyWorld))
       = lines.
Proof.
  destruct (executeCheck_result_explained Supervisor.url_Parse
              (Supervisor.decodeServices Supervisor.listings)
              Supervisor.decodeHealth
              (Supervisor.serve Supervisor.warning_and_ok)
              (Supervisor.explicit ["redis.default"; "web.default"])
              emptyWorld _ sensu.CheckStateWarning eq_refl)
    as (lines & Hout & Hwarn & _).
  destruct (Hwarn eq_refl) as [group Hin].
  exists group, lines. split; [exact Hin | exact Hout].
Defined.

Lemma executeCheck_services_any_order_witness :
  fst (executeCheck_services Supervisor.url_Parse Supervisor.decodeHealth
         (Supervisor.serve Supervisor.warning_and_ok)
         (Supervisor.explicit []) ["redis.default"; "web.default"] emptyWorld)
  = fst (executeCheck_services Supervisor.url_Parse Supervisor.decodeHealth
           (Supervisor.serve Supervisor.warning_and_ok)
           (Supervisor.explicit []) ["web.default"; "redis.default"]
           emptyWorld).
Proof.
  eapply executeCheck_services_any_order;
    [reflexivity | reflexivity | apply perm_swap].
Defined.

Lemma executeCheck_services_monotone_witness :
  exists c1 c12,
    fst (executeCheck_services Supervisor.url_Parse Supervisor.decodeHealth
           (Supervisor.serve Supervisor.warning_and_ok)
           (Supervisor.explicit []) ["web.default"] emptyWorld)
    = Done (c1, None)
    /\ fst (executeCheck_services Supervisor.url_Parse Supervisor.decodeHealth
              (Supervisor.serve Supervisor.warning_and_ok)
              (Supervisor.explicit []) (["web.default"] ++ ["redis.default"])
              emptyWorld)
       = Done (c12, None)
    /\ c1 <= c12.
Proof.
  eapply executeCheck_services_monotone; reflexivity.
Defined.

Lemma checkService_request_path_witness :
  exists name group,
    "redis.default" = name +++ "." +++ group /\ has_dot name = false.
Proof.
  destruct (checkService_request_path Supervisor.url_Parse
              Supervisor.decodeHealth (Supervisor.serve Supervisor.redis_ok)
              (Supervisor.explicit ["redis.default"]) "redis.default"
              emptyWorld eq_refl)
    as (name & group & req & Hsplit & Hname & _).
  exists name, group. split; assumption.
Defined.

Lemma inline_executeCheck_listing_witness :
  inline_executeCheck Supervisor.url_Parse
    (Supervisor.serve Supervisor.listing_warning) Supervisor.enumerating
    (Supervisor.decodeListed Supervisor.listedBodies) emptyWorld
  = (Done (sensu.CheckStateWarning, None),
     printed (sent emptyWorld (rawServicesRequest Supervisor.enumerating))
       ["redis.default WARNING" +++ newline]).
Proof.
  exact (inline_executeCheck_listing Supervisor.url_Parse
           (Supervisor.serve Supervisor.listing_warning) Supervisor.enumerating
           (Supervisor.decodeListed Supervisor.listedBodies) emptyWorld
           (Build_Response 200 "warning and blank")
           Supervisor.warning_and_blank eq_refl eq_refl eq_refl eq_refl).
Defined.

Lemma inline_executeCheck_unrecognised_witness :
  inline_executeCheck Supervisor.url_Parse
    (Supervisor.serve Supervisor.listing_ok) Supervisor.enumerating
    (Supervisor.decodeListed Supervisor.listedBodies) emptyWorld
  = (Done (sensu.CheckStateOK, None),
     printed (sent emptyWorld (rawServicesRequest Supervisor.enumerating))
       ["All health checks returning OK for loaded services"]).
Proof.
  apply (inline_executeCheck_unrecognised Supervisor.url_Parse
           (Supervisor.serve Supervisor.listing_ok) Supervisor.enumerating
           (Supervisor.decodeListed Supervisor.listedBodies) emptyWorld
           (Build_Response 200 "ok and blank") Supervisor.ok_and_blank
           eq_refl eq_refl eq_refl eq_refl).
  - discriminate.
  - constructor; [right; reflexivity |].
    constructor; [left; reflexivity | constructor].
Defined.

Lemma group_checkServices_aborts_witness :
  exists err w1,
    group_executeCheck Supervisor.url_Parse
      (Supervisor.serve Supervisor.redis_group_only)
      (Supervisor.explicit ["redis.default"; "web.default"])
      (Supervisor.decodeListed Supervisor.listedBodies) emptyWorld
    = (Done (sensu.CheckStateCritical,
             Some ("could not retrive service health: " +++ err)),
       sent w1
         (groupRequest (Supervisor.explicit ["redis.default"; "web.default"])
            "web.default"))
    /\ stdout w1 = [].
Proof.
  destruct (group_checkServices_aborts Supervisor.url_Parse
              (Supervisor.serve Supervisor.redis_group_only)
              (Supervisor.explicit ["redis.default"; "web.default"])
              (Supervisor.decodeListed Supervisor.listedBodies)
              ["redis.default"] [] "web.default" emptyWorld _ _
              eq_refl eq_refl eq_refl eq_refl
              (or_introl (ex_intro _ "connection refused" eq_refl)))
    as (err & Hrun & Hout).
  do 2 eexists. split; [exact Hrun | exact Hout].
Defined.


Lemma draft_executeCheck_closed_bodies_witness :
  exists err w',
    draft_executeCheck Supervisor.url_Parse
      (Supervisor.decodeServices Supervisor.listings)
      (Supervisor.serve Supervisor.redis_ok)
      (Supervisor.explicit ["redis.default"])
      Supervisor.decodeGroupHealth Supervisor.closedBody emptyWorld
    = (Done (sensu.CheckStateCritical, Some err), w')
    /\ stdout w' = [].
Proof.
  destruct (draft_executeCheck_closed_bodies Supervisor.url_Parse
              (Supervisor.decodeServices Supervisor.listings)
              (Supervisor.serve Supervisor.redis_ok)
              (Supervisor.explicit ["redis.default"])
              Supervisor.decodeGroupHealth Supervisor.closedBody emptyWorld
              (fun _ => ex_intro _ _ eq_refl)
              (fun _ => ex_intro _ _ eq_refl)
              eq_refl)
    as (err & w' & Hrun & Hout & _).
  exists err, w'. split; [exact Hrun | exact Hout].
Defined.

Lemma executeCheck_panic_silent_witness :
  stdout
    (snd (executeCheck Supervisor.url_Parse
            (Supervisor.decodeServices Supervisor.listings)
            Supervisor.decodeHealth
            (Supervisor.serve Supervisor.listing_no_dot)
            Supervisor.enumerating emptyWorld))
  = [].
Proof.
  exact (proj1 (proj2
           (executeCheck_panic_silent Supervisor.url_Parse
              (Supervisor.decodeServices Supervisor.listings)
              Supervisor.decodeHealth
              (Supervisor.serve Supervisor.listing_no_dot)
              Supervisor.enumerating emptyWorld _ _ eq_refl))).
Defined.
